(** * The GitHub input plugin for telegraf, embedded in Rocq

    Shallow embedding of [plugins/inputs/github/github.go]: the plugin
    configuration, [Gather], [processRepo], [splitRepoId] and [getClient],
    together with the few pieces of the Go runtime and of the go-github and
    telegraf libraries that the plugin calls.

    Conventions.
    - Go's [int] is modelled as a [Z] with 64-bit two's-complement
      wrap-around written out ([int_add]).
    - Go strings are [string]s (sequences of bytes).
    - A Go [error] value is an [option error]: [None] is [nil].
    - A pointer to an int ([*int]) is an [option Z]: [None] is [nil].
    - The effects of the plugin (metrics and errors pushed into the
      accumulator, requests sent through the API client, HTTP clients
      created, lines logged) are recorded in a [World] that is threaded
      through a small state monad [M].
    - The remote API is an oracle [Env]: its answers may depend on the
      client and on every request issued before.
    - The values go-github decodes are taken as it decodes a well-formed
      answer: the elements of a slice are present (no nil pointer among the
      releases, assets or samples), and so is the timestamp of a sample.
      Optional numbers stay optional. *)

From stdpp Require Import base option list strings gmap fin_maps.
From Stdlib Require Import ZArith Lia Ascii.

Open Scope string_scope.
Open Scope Z_scope.
Open Scope list_scope.

(** ** Go runtime *)

(** Width of Go's [int] on the 64-bit targets. *)
Definition intSize : Z := 64.

(** Two's-complement reduction of an integer to the range of [int]. *)
Definition int_wrap (z : Z) : Z :=
  (z + 2 ^ (intSize - 1)) mod 2 ^ intSize - 2 ^ (intSize - 1).

(** [a + b] on [int]. *)
Definition int_add (a b : Z) : Z := int_wrap (a + b).

(** The values an [int] can hold. *)
Definition int_range (z : Z) : Prop :=
  - 2 ^ (intSize - 1) <= z < 2 ^ (intSize - 1).

(** [time.Time], as the instant it denotes: nanoseconds elapsed since
    January 1, year 1, 00:00:00 UTC, the zero value [time.Time{}]. *)
Definition Time : Type := Z.

Definition Time_zero : Time := 0.

(** [t.After(u)]: the instant [t] is strictly after [u]. *)
Definition Time_After (t u : Time) : bool := Z.ltb u t.

(** Seconds between the zero [Time] and the Unix epoch
    ([unixToInternal] in package time). *)
Definition unixToInternal : Z := 62135596800.

(** [time.Unix(sec, 0)]. *)
Definition time_Unix (sec : Z) : Time := (sec + unixToInternal) * 1000000000.

(** [strings.Split(s, sep)] for a separator [sep] of one byte: the pieces of
    [s] between the occurrences of [sep], in order; one more piece than there
    are occurrences. *)
Fixpoint strings_Split (s : string) (sep : ascii) : list string :=
  match s with
  | EmptyString => [EmptyString]
  | String c s' =>
      if Ascii.eqb c sep then EmptyString :: strings_Split s' sep
      else match strings_Split s' sep with
           | [] => [String c EmptyString]
           | p :: ps => String c p :: ps
           end
  end.

(** Number of occurrences of the byte [c] in [s]
    ([strings.Count] for a separator of one byte). *)
Fixpoint strings_Count (s : string) (c : ascii) : nat :=
  match s with
  | EmptyString => O
  | String c' s' => (if Ascii.eqb c' c then 1 else 0)%nat + strings_Count s' c
  end.

(** ** Errors *)

Inductive error : Type :=
  | ErrEmptyRepoList                  (* errors.New("github: Empty repo list") *)
  | ErrInvalidRepoId (repo : string)  (* fmt.Errorf("github: Invalid repo identifier '%s'", repo) *)
  | ErrExternal (msg : string).       (* an error returned by go-github *)

(** [err.Error()]. *)
Definition Error (e : error) : string :=
  match e with
  | ErrEmptyRepoList => "github: Empty repo list"
  | ErrInvalidRepoId repo => "github: Invalid repo identifier '" +:+ repo +:+ "'"
  | ErrExternal msg => msg
  end.

(** ** The go-github data the plugin reads *)

Module githubApi.

Record Repository : Type := {
  ForksCount : option Z;
  StargazersCount : option Z;
  SubscribersCount : option Z
}.

Record ReleaseAsset : Type := { DownloadCount : option Z }.

Record RepositoryRelease : Type := { Assets : list ReleaseAsset }.

(** One per-day sample of [TrafficViews]. The plugin dereferences the
    timestamp of every sample, so a sample is modelled with its
    timestamp present. *)
Record TrafficData : Type := {
  Timestamp : Time;
  Count : option Z;
  Uniques : option Z
}.

Record TrafficViews : Type := {
  Views : list TrafficData;
  ViewsCount : option Z;
  ViewsUniques : option Z
}.

Record TrafficBreakdownOptions : Type := { Per : string }.

(** The nil-safe getters: zero when the field is absent. *)
Definition GetDownloadCount (a : ReleaseAsset) : Z :=
  match DownloadCount a with Some n => n | None => 0 end.

Definition GetCount (t : TrafficData) : Z :=
  match Count t with Some n => n | None => 0 end.

Definition GetUniques (t : TrafficData) : Z :=
  match Uniques t with Some n => n | None => 0 end.

(** [http.Client], as far as the plugin configures it. *)
Record HTTPClient : Type := {
  hc_Timeout : option Z;        (* seconds; None: no timeout set *)
  hc_AccessToken : option string (* the oauth2 bearer token, if any *)
}.

Record Client : Type := {
  client_http : HTTPClient;   (* the [client] field *)
  BaseURL : string
}.

Definition defaultBaseURL : string := "https://api.github.com/".

(** [githubApi.NewClient(httpClient)]. *)
Definition NewClient (httpClient : HTTPClient) : Client :=
  {| client_http := httpClient; BaseURL := defaultBaseURL |}.

(** A request sent through [client.Repositories]. *)
Inductive Call : Type :=
  | CallGet (owner repo : string)
  | CallListReleases (owner repo : string)
  | CallListTrafficViews (owner repo : string) (opts : TrafficBreakdownOptions).

Definition isListTrafficViews (c : Call) : bool :=
  match c with CallListTrafficViews _ _ _ => true | _ => false end.

End githubApi.

Import githubApi.

(** ** The telegraf side *)

Module telegraf.

(** A value stored in a [map[string]interface{}] of fields: the plugin
    stores plain ints and pointers to ints. *)
Inductive FieldValue : Type :=
  | FInt (n : Z)
  | FIntPtr (p : option Z).

Inductive ValueType : Type := Counter | Gauge | Untyped.

Record Metric : Type := {
  m_name : string;
  m_fields : gmap string FieldValue;
  m_tags : gmap string string;
  m_type : ValueType
}.

Inductive LogLine : Type :=
  | LogInfof (format : string) (args : list string)
  | LogDebug (args : list string).

End telegraf.

Import telegraf.

(** ** Plugin configuration *)

Record GitHub : Type := {
  Repos : list string;
  APIBaseURL : string;
  AccessToken : string;
  Timeout : Z;
  Debug : bool
}.

Definition NewGitHub : GitHub :=
  {| Repos := []; APIBaseURL := ""; AccessToken := ""; Timeout := 10; Debug := false |}.

(** ** Effects *)

Record World : Type := {
  acc_metrics : list Metric;       (* a.AddCounter(...), oldest first *)
  acc_errors : list error;         (* a.AddError(err) with err != nil *)
  api_calls : list Call;           (* requests issued, oldest first *)
  http_clients : list HTTPClient;  (* HTTP clients created *)
  log_lines : list LogLine         (* plugin.Log *)
}.

Definition emptyWorld : World :=
  {| acc_metrics := []; acc_errors := []; api_calls := [];
     http_clients := []; log_lines := [] |}.

Definition M (A : Type) : Type := World -> A * World.

#[global] Instance M_ret : MRet M := fun A a w => (a, w).
#[global] Instance M_bind : MBind M :=
  fun A B f m w => let (a, w') := m w in f a w'.

Definition Log_Infof (format : string) (args : list string) : M unit :=
  fun w =>
    (tt, {| acc_metrics := acc_metrics w; acc_errors := acc_errors w;
            api_calls := api_calls w; http_clients := http_clients w;
            log_lines := log_lines w ++ [LogInfof format args] |}).

Definition Log_Debug (args : list string) : M unit :=
  fun w =>
    (tt, {| acc_metrics := acc_metrics w; acc_errors := acc_errors w;
            api_calls := api_calls w; http_clients := http_clients w;
            log_lines := log_lines w ++ [LogDebug args] |}).

(** [a.AddCounter(measurement, fields, tags)]. *)
Definition AddCounter (measurement : string)
    (fields : gmap string FieldValue) (tags : gmap string string) : M unit :=
  fun w =>
    (tt, {| acc_metrics := acc_metrics w ++
              [{| m_name := measurement; m_fields := fields;
                  m_tags := tags; m_type := Counter |}];
            acc_errors := acc_errors w;
            api_calls := api_calls w; http_clients := http_clients w;
            log_lines := log_lines w |}).

(** [a.AddError(err)]: a nil error is ignored. *)
Definition AddError (err : option error) : M unit :=
  fun w =>
    match err with
    | None => (tt, w)
    | Some e =>
        (tt, {| acc_metrics := acc_metrics w; acc_errors := acc_errors w ++ [e];
                api_calls := api_calls w; http_clients := http_clients w;
                log_lines := log_lines w |})
    end.

(** Creation of an [http.Client]. *)
Definition newHTTPClient (hc : HTTPClient) : M HTTPClient :=
  fun w =>
    (hc, {| acc_metrics := acc_metrics w; acc_errors := acc_errors w;
            api_calls := api_calls w; http_clients := http_clients w ++ [hc];
            log_lines := log_lines w |}).

(** Records that a request is sent. *)
Definition issue (c : Call) : M unit :=
  fun w =>
    (tt, {| acc_metrics := acc_metrics w; acc_errors := acc_errors w;
            api_calls := api_calls w ++ [c]; http_clients := http_clients w;
            log_lines := log_lines w |}).

(** The external collaborators: what the remote API answers to a request,
    given the client and the requests issued before it, and what
    [githubApi.NewEnterpriseClient] makes of a base URL. *)
Record Env : Type := {
  NewEnterpriseClient : string -> string -> HTTPClient -> Client + error;
  answer_Get : Client -> list Call -> string -> string -> Repository + error;
  answer_ListReleases :
    Client -> list Call -> string -> string -> list RepositoryRelease + error;
  answer_ListTrafficViews :
    Client -> list Call -> string -> string -> TrafficBreakdownOptions ->
    TrafficViews + error
}.

(** ** The plugin *)

Section Plugin.

Context (env : Env).

Definition when (b : bool) (m : M unit) : M unit :=
  if b then m else mret tt.

(** [client.Repositories.Get(ctx, owner, repo)]. *)
Definition Repositories_Get (client : Client) (owner repo : string)
    : M (Repository + error) :=
  fun w =>
    (answer_Get env client (api_calls w) owner repo,
     snd (issue (CallGet owner repo) w)).

(** [client.Repositories.ListReleases(ctx, owner, repo, nil)]. *)
Definition Repositories_ListReleases (client : Client) (owner repo : string)
    : M (list RepositoryRelease + error) :=
  fun w =>
    (answer_ListReleases env client (api_calls w) owner repo,
     snd (issue (CallListReleases owner repo) w)).

(** [client.Repositories.ListTrafficViews(ctx, owner, repo, opts)]. *)
Definition Repositories_ListTrafficViews (client : Client)
    (owner repo : string) (opts : TrafficBreakdownOptions)
    : M (TrafficViews + error) :=
  fun w =>
    (answer_ListTrafficViews env client (api_calls w) owner repo opts,
     snd (issue (CallListTrafficViews owner repo opts) w)).

(** [splitRepoId]: the two parts and the error. *)
Definition splitRepoId (repo : string) : string * string * option error :=
  let repoParts := strings_Split repo "/"%char in
  match repoParts with
  | [part0; part1] => (part0, part1, None)
  | _ => ("", "", Some (ErrInvalidRepoId repo))
  end.

(** The loop over the assets of one release, from the running total. *)
Definition sumAssets (totalDownloadCount : Z) (assets : list ReleaseAsset) : Z :=
  foldl (fun total repoReleaseAsset =>
           int_add total (GetDownloadCount repoReleaseAsset))
        totalDownloadCount assets.

(** The loop over the releases, from [totalDownloadCount := 0]. *)
Definition sumReleases (repoReleases : list RepositoryRelease) : Z :=
  foldl (fun total repoRelease => sumAssets total (Assets repoRelease))
        0 repoReleases.

(** The three variables the loop over the traffic views updates. *)
Record ViewState : Type := {
  viewTimestamp : Time;
  totalViews : Z;
  uniqueViews : Z
}.

Definition viewInit : ViewState :=
  {| viewTimestamp := Time_zero; totalViews := 0; uniqueViews := 0 |}.

Definition viewStep (st : ViewState) (repoTrafficView : TrafficData) : ViewState :=
  if Time_After (Timestamp repoTrafficView) (viewTimestamp st) then
    {| viewTimestamp := Timestamp repoTrafficView;
       totalViews := GetCount repoTrafficView;
       uniqueViews := GetUniques repoTrafficView |}
  else st.

Definition viewsLoop (st : ViewState) (views : list TrafficData) : ViewState :=
  foldl viewStep st views.

(** The record [processRepo] hands to [a.AddCounter]. *)
Definition repoFields (repoInfo : Repository)
    (totalDownloadCount : Z) (st : ViewState) : gmap string FieldValue :=
  <["unique_views" := FInt (uniqueViews st)]>
  (<["total_views" := FInt (totalViews st)]>
  (<["total_download_count" := FInt totalDownloadCount]>
  (<["subscribers_count" := FIntPtr (SubscribersCount repoInfo)]>
  (<["stargazers_count" := FIntPtr (StargazersCount repoInfo)]>
  (<["forks_count" := FIntPtr (ForksCount repoInfo)]> ∅))))).

Definition repoTags (repo : string) : gmap string string :=
  <["github_repo" := repo]> ∅.

Definition processRepo (plugin : GitHub) (client : Client) (repo : string)
    : M (option error) :=
  when (Debug plugin) (Log_Infof "Processing repo: %s" [repo]);;
  match splitRepoId repo with
  | (_, _, Some err) => mret (Some err)
  | (repoOwner, repoName, None) =>
    r ← Repositories_Get client repoOwner repoName;
    match r with
    | inr err => mret (Some err)
    | inl repoInfo =>
      r ← Repositories_ListReleases client repoOwner repoName;
      match r with
      | inr err => mret (Some err)
      | inl repoReleases =>
        let totalDownloadCount := sumReleases repoReleases in
        if negb (String.eqb (AccessToken plugin) "") then
          r ← Repositories_ListTrafficViews client repoOwner repoName
                {| Per := "day" |};
          match r with
          | inr err => mret (Some err)
          | inl repoTrafficViews =>
            AddCounter "github_info"
              (repoFields repoInfo totalDownloadCount
                 (viewsLoop viewInit (Views repoTrafficViews)))
              (repoTags repo);;
            mret None
          end
        else
          AddCounter "github_info"
            (repoFields repoInfo totalDownloadCount viewInit)
            (repoTags repo);;
          mret None
      end
    end
  end.

Definition getClient (plugin : GitHub) : M (Client + error) :=
  when (Debug plugin) (Log_Debug ["Creating GitHub client..."]);;
  httpClient ← newHTTPClient
    {| hc_Timeout := Some (Timeout plugin); hc_AccessToken := None |};
  httpClient ←
    (if negb (String.eqb (AccessToken plugin) "") then
       when (Debug plugin) (Log_Debug ["Using oauth2 access token..."]);;
       newHTTPClient
         {| hc_Timeout := None; hc_AccessToken := Some (AccessToken plugin) |}
     else mret httpClient);
  if negb (String.eqb (APIBaseURL plugin) "") then
    when (Debug plugin)
      (Log_Debug ["Using API base URL: '%s'..."; APIBaseURL plugin]);;
    mret (NewEnterpriseClient env (APIBaseURL plugin) "" httpClient)
  else mret (inl (NewClient httpClient)).

(** The loop of [Gather] over [plugin.Repos]. *)
Fixpoint gatherRepos (plugin : GitHub) (client : Client) (repos : list string)
    : M unit :=
  match repos with
  | [] => mret tt
  | repo :: rest =>
    err ← processRepo plugin client repo;
    AddError err;;
    gatherRepos plugin client rest
  end.

Definition Gather (plugin : GitHub) : M (option error) :=
  if Nat.eqb (length (Repos plugin)) 0 then mret (Some ErrEmptyRepoList)
  else
    r ← getClient plugin;
    match r with
    | inr err => mret (Some err)
    | inl client => gatherRepos plugin client (Repos plugin);; mret None
    end.

End Plugin.

(** ** Concrete environments *)

(** A remote that gives the same three answers to every request. *)
Definition fixedEnv (info : Repository + error)
    (releases : list RepositoryRelease + error)
    (views : TrafficViews + error) : Env :=
  {| NewEnterpriseClient := fun baseURL _ httpClient =>
       inl {| client_http := httpClient; BaseURL := baseURL |};
     answer_Get := fun _ _ _ _ => info;
     answer_ListReleases := fun _ _ _ _ => releases;
     answer_ListTrafficViews := fun _ _ _ _ _ => views |}.

Definition asset (n : Z) : ReleaseAsset := {| DownloadCount := Some n |}.

Definition release (counts : list Z) : RepositoryRelease :=
  {| Assets := map asset counts |}.

Definition sample (t : Time) (count uniques : Z) : TrafficData :=
  {| Timestamp := t; Count := Some count; Uniques := Some uniques |}.

(** The answers of the test server of [github_test.go]. *)
Definition testResourceLight : Repository :=
  {| ForksCount := Some 2; StargazersCount := Some 1; SubscribersCount := Some 3 |}.

Definition testRepositoryReleases : list RepositoryRelease :=
  [release [1; 1; 1; 2; 1; 2]; release [2; 4; 2; 3; 3; 4]; release []].

(** Midnight UTC of a day of October 2022. *)
Definition october2022 (day : Z) : Time :=
  time_Unix (1664582400 + (day - 1) * 86400).

Definition testViews : list TrafficData :=
  [sample (october2022 10) 440 143;   sample (october2022 11) 1308 414;
   sample (october2022 12) 1486 452;  sample (october2022 13) 1170 401;
   sample (october2022 14) 868 266;   sample (october2022 15) 495 157;
   sample (october2022 16) 524 175;   sample (october2022 17) 1263 412;
   sample (october2022 18) 1402 417;  sample (october2022 19) 1394 424;
   sample (october2022 20) 1492 448;  sample (october2022 21) 1153 332;
   sample (october2022 22) 566 168;   sample (october2022 23) 675 184;
   sample (october2022 24) 614 237].

Definition testRepositoryTrafficViews : TrafficViews :=
  {| Views := testViews; ViewsCount := Some 14850; ViewsUniques := Some 3782 |}.

(** The test server: it knows one repository, [repo_owner/repo_name]. *)
Definition isTestRepo (owner repo : string) : bool :=
  String.eqb owner "repo_owner" && String.eqb repo "repo_name".

Definition testEnv : Env :=
  {| NewEnterpriseClient := fun baseURL _ httpClient =>
       inl {| client_http := httpClient; BaseURL := baseURL |};
     answer_Get := fun _ _ owner repo =>
       if isTestRepo owner repo then inl testResourceLight
       else inr (ErrExternal "unexpected end of JSON input");
     answer_ListReleases := fun _ _ owner repo =>
       if isTestRepo owner repo then inl testRepositoryReleases
       else inr (ErrExternal "unexpected end of JSON input");
     answer_ListTrafficViews := fun _ _ owner repo _ =>
       if isTestRepo owner repo then inl testRepositoryTrafficViews
       else inr (ErrExternal "unexpected end of JSON input") |}.

(** The configuration of [TestGather1]. *)
Definition testPlugin : GitHub :=
  {| Repos := ["repo_owner/repo_name"]; APIBaseURL := "http://127.0.0.1:8080";
     AccessToken := "secret_token"; Timeout := 10; Debug := true |}.

Definition testClient : Client :=
  {| client_http := {| hc_Timeout := None; hc_AccessToken := Some "secret_token" |};
     BaseURL := "http://127.0.0.1:8080" |}.

Definition anonClient : Client :=
  NewClient {| hc_Timeout := Some 10; hc_AccessToken := None |}.

Definition testRepo : string := "repo_owner/repo_name".

(** The same configuration without an access token, and with repositories
    the test server does not know around the one it knows. *)
Definition anonPlugin : GitHub :=
  {| Repos := ["nobody/nothing"; testRepo; "no-slash"];
     APIBaseURL := ""; AccessToken := ""; Timeout := 10; Debug := false |}.

(** A configuration in which every repository fails. *)
Definition failingPlugin : GitHub :=
  {| Repos := ["no-slash"; "nobody/nothing"; "a/b/c"];
     APIBaseURL := ""; AccessToken := ""; Timeout := 10; Debug := false |}.

(** The world after [getClient] for the two configurations above, and
    after the collection of the unknown repository from there. *)
Definition anonWorld0 : World :=
  snd (getClient testEnv anonPlugin emptyWorld).

Definition anonWorld2 : World :=
  snd (processRepo testEnv anonPlugin anonClient "nobody/nothing" anonWorld0).

Definition viewsOf (views : list TrafficData) : TrafficViews :=
  {| Views := views; ViewsCount := None; ViewsUniques := None |}.

(** A remote whose one release has two assets, the first downloaded
    [2^63 - 1] times, the largest [int], and the second once. *)
Definition hugeReleases : list RepositoryRelease :=
  [release [2 ^ 63 - 1; 1]].

Definition hugeEnv : Env :=
  fixedEnv (inl testResourceLight) (inl hugeReleases)
    (inl testRepositoryTrafficViews).

(** A remote whose only traffic sample is dated 0001-01-01T00:00:00Z. *)
Definition yearOneViews : list TrafficData := [sample Time_zero 5 3].

Definition yearOneEnv : Env :=
  fixedEnv (inl testResourceLight) (inl testRepositoryReleases)
    (inl (viewsOf yearOneViews)).

(** Two samples that share the latest timestamp: after an older sample
    in [tiedViews], both dated 0001-01-01T00:00:00Z in
    [tiedYearOneViews]. *)
Definition tiedViews : list TrafficData :=
  [sample (october2022 10) 440 143;
   sample (october2022 24) 614 237;
   sample (october2022 24) 9 6].

Definition tiedEnv : Env :=
  fixedEnv (inl testResourceLight) (inl testRepositoryReleases)
    (inl (viewsOf tiedViews)).

Definition tiedYearOneViews : list TrafficData :=
  [sample Time_zero 7 4; sample Time_zero 9 6].

Definition tiedYearOneEnv : Env :=
  fixedEnv (inl testResourceLight) (inl testRepositoryReleases)
    (inl (viewsOf tiedYearOneViews)).

(** ** The paths through [processRepo]

    One constructor per way [processRepo] can run on a repository, given
    the requests [h] issued before: the error it returns, the requests it
    adds and the records it pushes. *)

Definition viewsCall (owner name : string) : Call :=
  CallListTrafficViews owner name {| Per := "day" |}.

Definition repoMetric (repo : string) (repoInfo : Repository)
    (repoReleases : list RepositoryRelease) (st : ViewState) : Metric :=
  {| m_name := "github_info";
     m_fields := repoFields repoInfo (sumReleases repoReleases) st;
     m_tags := repoTags repo;
     m_type := Counter |}.

Inductive repoRun (env : Env) (plugin : GitHub) (client : Client)
    (repo : string) (h : list Call)
    : option error -> list Call -> list Metric -> Prop :=
  | run_invalid p0 p1 e :
      splitRepoId repo = (p0, p1, Some e) ->
      repoRun env plugin client repo h (Some e) [] []
  | run_Get_fails owner name e :
      splitRepoId repo = (owner, name, None) ->
      answer_Get env client h owner name = inr e ->
      repoRun env plugin client repo h (Some e) [CallGet owner name] []
  | run_ListReleases_fails owner name info e :
      splitRepoId repo = (owner, name, None) ->
      answer_Get env client h owner name = inl info ->
      answer_ListReleases env client (h ++ [CallGet owner name]) owner name
        = inr e ->
      repoRun env plugin client repo h (Some e)
        [CallGet owner name; CallListReleases owner name] []
  | run_ListTrafficViews_fails owner name info rels e :
      splitRepoId repo = (owner, name, None) ->
      answer_Get env client h owner name = inl info ->
      answer_ListReleases env client (h ++ [CallGet owner name]) owner name
        = inl rels ->
      AccessToken plugin <> "" ->
      answer_ListTrafficViews env client
        (h ++ [CallGet owner name; CallListReleases owner name])
        owner name {| Per := "day" |} = inr e ->
      repoRun env plugin client repo h (Some e)
        [CallGet owner name; CallListReleases owner name; viewsCall owner name]
        []
  | run_without_token owner name info rels :
      splitRepoId repo = (owner, name, None) ->
      answer_Get env client h owner name = inl info ->
      answer_ListReleases env client (h ++ [CallGet owner name]) owner name
        = inl rels ->
      AccessToken plugin = "" ->
      repoRun env plugin client repo h None
        [CallGet owner name; CallListReleases owner name]
        [repoMetric repo info rels viewInit]
  | run_with_token owner name info rels tv :
      splitRepoId repo = (owner, name, None) ->
      answer_Get env client h owner name = inl info ->
      answer_ListReleases env client (h ++ [CallGet owner name]) owner name
        = inl rels ->
      AccessToken plugin <> "" ->
      answer_ListTrafficViews env client
        (h ++ [CallGet owner name; CallListReleases owner name])
        owner name {| Per := "day" |} = inl tv ->
      repoRun env plugin client repo h None
        [CallGet owner name; CallListReleases owner name; viewsCall owner name]
        [repoMetric repo info rels (viewsLoop viewInit (Views tv))].

(** The state of the loop over the traffic views once it has taken [v]. *)
Definition viewOf (v : TrafficData) : ViewState :=
  {| viewTimestamp := Timestamp v;
     totalViews := GetCount v;
     uniqueViews := GetUniques v |}.

(** The sum of the download counts of all assets of all releases, as the
    specification words it: an exact integer. *)
Definition downloadTotal (repoReleases : list RepositoryRelease) : Z :=
  foldr Z.add 0 (map GetDownloadCount (concat (map Assets repoReleases))).

(** What an emitted record says under a field name. *)
Definition field (m : Metric) (name : string) : option FieldValue :=
  m_fields m !! name.

(** A record without views. *)
Definition noViews (m : Metric) : Prop :=
  field m "total_views" = Some (FInt 0)
  /\ field m "unique_views" = Some (FInt 0).

(** ** A cycle, repository by repository

    What the loop of [Gather] does for one repository: the requests it
    issues, the records it pushes and the errors it hands to the
    accumulator. *)
Record Step : Type := {
  s_calls : list Call;
  s_metrics : list Metric;
  s_errors : list error
}.

(** The loop over [repos], from the requests [h] issued before it: one step
    per repository, in order, each following a path of [processRepo] and
    passing its result to [a.AddError]. *)
Inductive cycle (env : Env) (plugin : GitHub) (client : Client)
    : list Call -> list string -> list Step -> Prop :=
  | cycle_nil h : cycle env plugin client h [] []
  | cycle_cons h repo rest err calls ms steps :
      repoRun env plugin client repo h err calls ms ->
      cycle env plugin client (h ++ calls) rest steps ->
      cycle env plugin client h (repo :: rest)
        ({| s_calls := calls; s_metrics := ms; s_errors := option_list err |}
         :: steps).

(** The line [processRepo] logs in debug mode. *)
Definition processingLine (repo : string) : LogLine :=
  LogInfof "Processing repo: %s" [repo].

(** The lines [getClient] logs in debug mode. *)
Definition getClientLines (plugin : GitHub) : list LogLine :=
  [LogDebug ["Creating GitHub client..."]]
  ++ (if negb (String.eqb (AccessToken plugin) "")
      then [LogDebug ["Using oauth2 access token..."]] else [])
  ++ (if negb (String.eqb (APIBaseURL plugin) "")
      then [LogDebug ["Using API base URL: '%s'..."; APIBaseURL plugin]]
      else []).

(** The HTTP clients [getClient] creates: the one with the timeouts, then,
    with an access token, the oauth2 one that replaces it. *)
Definition timeoutClient (plugin : GitHub) : HTTPClient :=
  {| hc_Timeout := Some (Timeout plugin); hc_AccessToken := None |}.

Definition oauth2Client (plugin : GitHub) : HTTPClient :=
  {| hc_Timeout := None; hc_AccessToken := Some (AccessToken plugin) |}.

(** The three requests [processRepo] can issue for [owner/name]. *)
Definition requestsOf (owner name : string) : list Call :=
  [CallGet owner name; CallListReleases owner name; viewsCall owner name].

(** The tag set of the record of [repo]. *)
Definition tagsOf (repo : string) : gmap string string :=
  {[ "github_repo" := repo ]}.

(** A remote that answers as the test server does, behind a base URL that
    [NewEnterpriseClient] cannot parse. *)
Definition badURLEnv : Env :=
  {| NewEnterpriseClient := fun _ _ _ =>
       inr (ErrExternal "parse: missing protocol scheme");
     answer_Get := answer_Get testEnv;
     answer_ListReleases := answer_ListReleases testEnv;
     answer_ListTrafficViews := answer_ListTrafficViews testEnv |}.

(** A configuration of two identifiers without a single [/]. *)
Definition invalidPlugin : GitHub :=
  {| Repos := ["no-slash"; "a/b/c"];
     APIBaseURL := ""; AccessToken := ""; Timeout := 10; Debug := false |}.

(** A remote that knows every repository. *)
Definition openEnv : Env :=
  fixedEnv (inl testResourceLight) (inl testRepositoryReleases)
    (inl testRepositoryTrafficViews).

Definition twoRepos : GitHub :=
  {| Repos := ["a/b"; "c/d"];
     APIBaseURL := ""; AccessToken := "secret_token"; Timeout := 10;
     Debug := true |}.

Definition tokenClient : Client :=
  NewClient {| hc_Timeout := None; hc_AccessToken := Some "secret_token" |}.

(** The configuration [plugin] with the debug flag set to [b]. *)
Definition setDebug (b : bool) (plugin : GitHub) : GitHub :=
  {| Repos := Repos plugin; APIBaseURL := APIBaseURL plugin;
     AccessToken := AccessToken plugin; Timeout := Timeout plugin;
     Debug := b |}.

(** What a cycle leaves apart from the log. *)
Definition observable (w : World)
    : list Metric * list error * list Call * list HTTPClient :=
  (acc_metrics w, acc_errors w, api_calls w, http_clients w).

(** * Properties *)

(** ** Integers *)

Lemma int_wrap_range (z : Z) : int_range z -> int_wrap z = z.
Proof.
  unfold int_range, int_wrap, intSize. intros H.
  rewrite Z.mod_small by lia. lia.
Qed.

Lemma int_wrap_add_l (a b : Z) : int_wrap (int_wrap a + b) = int_wrap (a + b).
Proof.
  unfold int_wrap.
  replace ((a + 2 ^ (intSize - 1)) mod 2 ^ intSize - 2 ^ (intSize - 1) + b
           + 2 ^ (intSize - 1))
    with ((a + 2 ^ (intSize - 1)) mod 2 ^ intSize + b) by lia.
  rewrite Zplus_mod_idemp_l.
  replace (a + 2 ^ (intSize - 1) + b) with (a + b + 2 ^ (intSize - 1)) by lia.
  reflexivity.
Qed.

Lemma int_wrap_0 : int_wrap 0 = 0.
Proof. reflexivity. Qed.

(** ** The download loops *)

Lemma sumAssets_wrap (assets : list ReleaseAsset) (t : Z) :
  sumAssets (int_wrap t) assets
  = int_wrap (t + foldr Z.add 0 (map GetDownloadCount assets)).
Proof.
  revert t. induction assets as [|a assets IH]; intros t; simpl.
  - f_equal. lia.
  - unfold sumAssets in *. simpl. unfold int_add at 2.
    rewrite int_wrap_add_l, IH. f_equal. lia.
Qed.

Lemma sumReleases_from (rels : list RepositoryRelease) (t : Z) :
  foldl (fun total repoRelease => sumAssets total (Assets repoRelease))
        (int_wrap t) rels
  = int_wrap (t + downloadTotal rels).
Proof.
  revert t. induction rels as [|r rels IH]; intros t; simpl.
  - unfold downloadTotal. simpl. f_equal. lia.
  - rewrite sumAssets_wrap, IH. f_equal.
    unfold downloadTotal. simpl. rewrite map_app, foldr_app.
    generalize (foldr Z.add 0
                  (map GetDownloadCount (concat (map Assets rels)))).
    intros z. induction (Assets r) as [|a l IHl]; simpl; lia.
Qed.

Lemma sumReleases_wrap (rels : list RepositoryRelease) :
  sumReleases rels = int_wrap (downloadTotal rels).
Proof.
  unfold sumReleases. rewrite <- int_wrap_0 at 1.
  rewrite sumReleases_from. reflexivity.
Qed.

(** ** The loop over the traffic views *)

(** Either no sample is later than the timestamp the loop starts from, and
    the state is unchanged, or the state is that of the first sample whose
    timestamp is the latest, and this sample is later than the start. *)
Lemma viewsLoop_spec (views : list TrafficData) (st : ViewState) :
  ((forall v, v ∈ views -> Timestamp v <= viewTimestamp st)
   /\ viewsLoop st views = st)
  \/ (exists pre v post,
        views = pre ++ v :: post
        /\ viewTimestamp st < Timestamp v
        /\ (forall v', v' ∈ pre -> Timestamp v' < Timestamp v)
        /\ (forall v', v' ∈ post -> Timestamp v' <= Timestamp v)
        /\ viewsLoop st views = viewOf v).
Proof.
  revert st. induction views as [|v0 rest IH]; intros st.
  - left. split; [|reflexivity]. intros v Hv. inversion Hv.
  - unfold viewsLoop in *. simpl.
    destruct (Z.ltb_spec (viewTimestamp st) (Timestamp v0)) as [Hlt|Hge].
    + assert (viewStep st v0 = viewOf v0) as ->.
      { unfold viewStep, Time_After.
        rewrite (proj2 (Z.ltb_lt _ _) Hlt). reflexivity. }
      right.
      destruct (IH (viewOf v0)) as [[Hall Heq]|(pre & v & post & -> & Hv & Hpre & Hpost & Heq)].
      * exists [], v0, rest. simpl in Hall.
        repeat split; auto. intros v' Hv'. inversion Hv'.
      * exists (v0 :: pre), v, post. simpl in Hv.
        repeat split; auto; try lia.
        intros v' Hv'. apply elem_of_cons in Hv' as [->|Hv']; auto.
    + assert (viewStep st v0 = st) as ->.
      { unfold viewStep, Time_After.
        rewrite (proj2 (Z.ltb_ge _ _) Hge). reflexivity. }
      destruct (IH st) as [[Hall Heq]|(pre & v & post & -> & Hv & Hpre & Hpost & Heq)].
      * left. split; auto.
        intros v Hv. apply elem_of_cons in Hv as [->|Hv]; auto.
      * right. exists (v0 :: pre), v, post.
        repeat split; auto.
        intros v' Hv'. apply elem_of_cons in Hv' as [->|Hv']; auto. lia.
Qed.

(** When samples with the same timestamp carry the same numbers, the order
    of the list does not matter. *)
Lemma viewsLoop_order (views views' : list TrafficData) :
  views ≡ₚ views' ->
  (forall v v', v ∈ views -> v' ∈ views -> Timestamp v = Timestamp v' ->
                GetCount v = GetCount v' /\ GetUniques v = GetUniques v') ->
  viewsLoop viewInit views = viewsLoop viewInit views'.
Proof.
  intros Hperm Hsame.
  destruct (viewsLoop_spec views viewInit)
    as [[Hall Heq]|(pre & v & post & Hl & Hv & Hpre & Hpost & Heq)];
  destruct (viewsLoop_spec views' viewInit)
    as [[Hall' Heq']|(pre' & v' & post' & Hl' & Hv' & Hpre' & Hpost' & Heq')].
  - congruence.
  - exfalso. assert (v' ∈ views) as Hin.
    { rewrite Hperm, Hl'. apply elem_of_app. right. left. }
    specialize (Hall _ Hin). lia.
  - exfalso. assert (v ∈ views') as Hin.
    { rewrite <- Hperm, Hl. apply elem_of_app. right. left. }
    specialize (Hall' _ Hin). lia.
  - assert (v ∈ views) as Hin by (rewrite Hl; apply elem_of_app; right; left).
    assert (v' ∈ views') as Hin' by (rewrite Hl'; apply elem_of_app; right; left).
    assert (forall x, x ∈ views -> Timestamp x <= Timestamp v) as Hmax.
    { intros x Hx. rewrite Hl in Hx.
      apply elem_of_app in Hx as [Hx|Hx]; [specialize (Hpre _ Hx); lia|].
      apply elem_of_cons in Hx as [->|Hx]; [lia|auto]. }
    assert (forall x, x ∈ views' -> Timestamp x <= Timestamp v') as Hmax'.
    { intros x Hx. rewrite Hl' in Hx.
      apply elem_of_app in Hx as [Hx|Hx]; [specialize (Hpre' _ Hx); lia|].
      apply elem_of_cons in Hx as [->|Hx]; [lia|auto]. }
    assert (v' ∈ views) as Hin2 by (rewrite Hperm; exact Hin').
    assert (v ∈ views') as Hin3 by (rewrite <- Hperm; exact Hin).
    assert (Timestamp v = Timestamp v') as Hts.
    { specialize (Hmax _ Hin2). specialize (Hmax' _ Hin3). lia. }
    destruct (Hsame v v' Hin Hin2 Hts) as [Hc Hu].
    rewrite Heq, Heq'. unfold viewOf. rewrite Hts, Hc, Hu. reflexivity.
Qed.

(** The samples of the test server, in any order, select 2022-10-24. *)
Example testViews_latest :
  viewsLoop viewInit testViews = viewOf (sample (october2022 24) 614 237)
  /\ viewsLoop viewInit (reverse testViews)
     = viewOf (sample (october2022 24) 614 237).
Proof. split; vm_compute; reflexivity. Qed.

(** ** [strings.Split] *)

Lemma strings_Split_length (s : string) (c : ascii) :
  length (strings_Split s c) = S (strings_Count s c).
Proof.
  induction s as [|a s IH]; simpl; [reflexivity|].
  destruct (Ascii.eqb a c); simpl.
  - rewrite IH. reflexivity.
  - destruct (strings_Split s c) as [|p ps]; simpl in *; [discriminate|].
    exact IH.
Qed.

Lemma strings_Split_no_sep (s : string) (c : ascii) :
  strings_Count s c = O -> strings_Split s c = [s].
Proof.
  induction s as [|a s IH]; simpl; [reflexivity|].
  destruct (Ascii.eqb a c); simpl; [discriminate|].
  intros H. rewrite (IH H). reflexivity.
Qed.

Lemma strings_Split_app (o n : string) (c : ascii) :
  strings_Count o c = O ->
  strings_Split (o +:+ String c n) c = o :: strings_Split n c.
Proof.
  induction o as [|a o IH]; simpl.
  - intros _. rewrite Ascii.eqb_refl. reflexivity.
  - destruct (Ascii.eqb a c); simpl; [discriminate|].
    intros H. rewrite (IH H). reflexivity.
Qed.

Lemma strings_Count_app (o n : string) (c : ascii) :
  strings_Count (o +:+ n) c = (strings_Count o c + strings_Count n c)%nat.
Proof.
  induction o as [|a o IH]; simpl; [reflexivity|].
  rewrite IH. lia.
Qed.

(** A string with an occurrence of [c] splits at the first one. *)
Lemma strings_Count_first (s : string) (c : ascii) (k : nat) :
  strings_Count s c = S k ->
  exists o n, s = o +:+ String c n
              /\ strings_Count o c = O /\ strings_Count n c = k.
Proof.
  induction s as [|a s IH]; simpl; [discriminate|].
  destruct (Ascii.eqb_spec a c) as [->|Hne]; simpl.
  - intros [= H]. exists EmptyString, s. auto.
  - intros H. destruct (IH H) as (o & n & -> & Ho & Hn).
    exists (String a o), n. simpl.
    destruct (Ascii.eqb_spec a c); [contradiction|]. auto.
Qed.

(** ** [processRepo] follows one of its paths *)

Create HintDb run discriminated.
#[local] Hint Constructors repoRun : run.

Ltac run_step :=
  match goal with
  | |- context [match ?x with inl _ => _ | inr _ => _ end] =>
      let E := fresh "E" in destruct x eqn:E
  | |- context [negb (String.eqb ?a ?b)] =>
      destruct (String.eqb_spec a b)
  end; simpl.

Lemma processRepo_run env plugin client repo w err w' :
  processRepo env plugin client repo w = (err, w') ->
  exists calls ms,
    repoRun env plugin client repo (api_calls w) err calls ms
    /\ api_calls w' = api_calls w ++ calls
    /\ acc_metrics w' = acc_metrics w ++ ms
    /\ acc_errors w' = acc_errors w
    /\ http_clients w' = http_clients w.
Proof.
  unfold processRepo, mbind, M_bind, mret, M_ret, when.
  unfold Repositories_Get, Repositories_ListReleases,
    Repositories_ListTrafficViews, AddCounter, Log_Infof, issue.
  destruct (splitRepoId repo) as [[owner name] [e|]] eqn:Hsplit.
  - destruct (Debug plugin); simpl; intros [= <- <-]; exists [], [];
      simpl; rewrite !app_nil_r; eauto 10 with run.
  - destruct (Debug plugin); simpl;
      repeat run_step; intros [= <- <-]; simpl;
      rewrite <- ?app_assoc in *; simpl in *;
      do 2 eexists; (split; [|repeat split; simpl; try reflexivity]);
      rewrite ?app_nil_r; eauto with run.
Qed.

(** ** [splitRepoId] *)

Lemma splitRepoId_valid (repo : string) :
  strings_Count repo "/" = 1%nat ->
  exists owner name,
    repo = owner +:+ "/" +:+ name
    /\ strings_Count owner "/" = O
    /\ strings_Count name "/" = O
    /\ splitRepoId repo = (owner, name, None).
Proof.
  intros H1.
  destruct (strings_Count_first _ _ _ H1) as (o & n & -> & Ho & Hn).
  exists o, n. repeat split; auto.
  unfold splitRepoId.
  rewrite (strings_Split_app _ _ _ Ho), (strings_Split_no_sep _ _ Hn).
  reflexivity.
Qed.

Lemma splitRepoId_invalid (repo : string) :
  strings_Count repo "/" <> 1%nat ->
  splitRepoId repo = ("", "", Some (ErrInvalidRepoId repo)).
Proof.
  intros Hn1. unfold splitRepoId.
  pose proof (strings_Split_length repo "/") as Hlen.
  destruct (strings_Split repo "/") as [|p0 [|p1 [|p2 ps]]];
    simpl in Hlen; try reflexivity.
  exfalso. apply Hn1. lia.
Qed.

(** C2, as amended. A string with exactly one [/] parses, whatever is on
    either side of it: the owner is the text before the [/] and the name the
    text after it, and either may be empty. Every other string fails with
    the invalid-identifier error (and two empty parts). *)
Theorem splitRepoId_one_slash (repo : string) :
  (strings_Count repo "/" = 1%nat
   /\ exists owner name,
        repo = owner +:+ "/" +:+ name
        /\ strings_Count owner "/" = O
        /\ strings_Count name "/" = O
        /\ splitRepoId repo = (owner, name, None))
  \/ (strings_Count repo "/" <> 1%nat
      /\ splitRepoId repo = ("", "", Some (ErrInvalidRepoId repo))).
Proof.
  destruct (decide (strings_Count repo "/" = 1%nat)) as [H1|Hn1].
  - left. split; [exact H1|]. apply splitRepoId_valid. exact H1.
  - right. split; [exact Hn1|]. apply splitRepoId_invalid. exact Hn1.
Qed.

(** C2, the claim as written fails: the identifier [owner/] has an empty
    second segment and parses all the same. *)
Lemma splitRepoId_empty_segment :
  strings_Split "owner/" "/" = ["owner"; ""]
  /\ splitRepoId "owner/" = ("owner", "", None).
Proof. split; reflexivity. Qed.

(** Identifiers with two non-empty segments parse into them. *)
Lemma splitRepoId_owner_name (owner name : string) :
  strings_Count owner "/" = O -> strings_Count name "/" = O ->
  splitRepoId (owner +:+ "/" +:+ name) = (owner, name, None).
Proof.
  intros Ho Hn. unfold splitRepoId.
  change ("/" +:+ name) with (String "/" name).
  rewrite (strings_Split_app _ _ _ Ho), (strings_Split_no_sep _ _ Hn).
  reflexivity.
Qed.

(** ** [getClient] and [Gather] *)

Lemma getClient_frame env plugin w r w0 :
  getClient env plugin w = (r, w0) ->
  api_calls w0 = api_calls w
  /\ acc_metrics w0 = acc_metrics w
  /\ acc_errors w0 = acc_errors w.
Proof.
  unfold getClient, mbind, M_bind, mret, M_ret, when, newHTTPClient, Log_Debug.
  destruct (Debug plugin); simpl; repeat run_step;
    intros [= <- <-]; simpl; auto.
Qed.

Lemma Gather_loop env plugin w client w0 :
  Repos plugin <> [] ->
  getClient env plugin w = (inl client, w0) ->
  Gather env plugin w
  = (None, snd (gatherRepos env plugin client (Repos plugin) w0)).
Proof.
  intros Hne Hc. unfold Gather.
  destruct (Repos plugin) as [|r rs] eqn:HR; [contradiction|].
  cbn [length Nat.eqb]. unfold mbind, M_bind at 1. rewrite Hc.
  unfold mbind, M_bind, mret, M_ret.
  destruct (gatherRepos env plugin client (r :: rs) w0). reflexivity.
Qed.

Lemma gatherRepos_cons env plugin client repo rest w :
  snd (gatherRepos env plugin client (repo :: rest) w)
  = snd (gatherRepos env plugin client rest
           (snd (AddError (fst (processRepo env plugin client repo w))
                          (snd (processRepo env plugin client repo w))))).
Proof.
  simpl. unfold mbind, M_bind.
  destruct (processRepo env plugin client repo w) as [err w1]. simpl.
  destruct (AddError err w1) as [[] w2]. reflexivity.
Qed.

Lemma gatherRepos_app env plugin client pre post w :
  snd (gatherRepos env plugin client (pre ++ post) w)
  = snd (gatherRepos env plugin client post
           (snd (gatherRepos env plugin client pre w))).
Proof.
  revert w. induction pre as [|r pre IH]; intros w; [reflexivity|].
  rewrite <- app_comm_cons, !gatherRepos_cons, IH. reflexivity.
Qed.

(** The accumulator only grows during the loop. *)
Lemma gatherRepos_grows env plugin client repos w :
  exists ms es,
    acc_metrics (snd (gatherRepos env plugin client repos w))
      = acc_metrics w ++ ms
    /\ acc_errors (snd (gatherRepos env plugin client repos w))
      = acc_errors w ++ es.
Proof.
  revert w. induction repos as [|r rs IH]; intros w.
  - exists [], []. simpl. rewrite !app_nil_r. auto.
  - rewrite gatherRepos_cons.
    destruct (processRepo env plugin client r w) as [err w1] eqn:Hp.
    destruct (processRepo_run _ _ _ _ _ _ _ Hp)
      as (calls & ms & _ & _ & Hm & He & _).
    destruct (IH (snd (AddError (fst (err, w1)) (snd (err, w1)))))
      as (ms' & es' & Hm' & He').
    rewrite Hm', He'. simpl.
    destruct err as [e|]; simpl; rewrite Hm, He, <- ?app_assoc; eauto.
Qed.

(** C8. With an empty repository list [Gather] returns the configuration
    error at once and leaves the world as it was: no HTTP client is
    created, no request is issued and no record is emitted. *)
Theorem Gather_empty_repo_list env plugin w :
  Repos plugin = [] ->
  Gather env plugin w = (Some ErrEmptyRepoList, w)
  /\ Error ErrEmptyRepoList = "github: Empty repo list".
Proof.
  intros H. unfold Gather. rewrite H. split; reflexivity.
Qed.

Lemma Gather_empty_repo_list_witness :
  Repos NewGitHub = []
  /\ Gather testEnv NewGitHub emptyWorld = (Some ErrEmptyRepoList, emptyWorld)
  /\ Error ErrEmptyRepoList = "github: Empty repo list".
Proof.
  split; [reflexivity|].
  apply (Gather_empty_repo_list testEnv NewGitHub emptyWorld). reflexivity.
Defined.


(** ** The record of a repository *)

Lemma repoMetric_fields repo info rels st :
  let m := repoMetric repo info rels st in
  field m "forks_count" = Some (FIntPtr (ForksCount info))
  /\ field m "stargazers_count" = Some (FIntPtr (StargazersCount info))
  /\ field m "subscribers_count" = Some (FIntPtr (SubscribersCount info))
  /\ field m "total_download_count" = Some (FInt (sumReleases rels))
  /\ field m "total_views" = Some (FInt (totalViews st))
  /\ field m "unique_views" = Some (FInt (uniqueViews st)).
Proof.
  unfold field, repoMetric, repoFields. cbn [m_fields].
  repeat split;
    repeat (rewrite lookup_insert_ne by discriminate);
    apply lookup_insert_eq.
Qed.

Lemma repoMetric_dom repo info rels st :
  dom (m_fields (repoMetric repo info rels st))
  = ({[ "forks_count"; "stargazers_count"; "subscribers_count";
        "total_download_count"; "total_views"; "unique_views" ]}
     : gset string).
Proof.
  unfold repoMetric, repoFields. cbn [m_fields].
  rewrite !dom_insert_L, dom_empty_L. set_solver.
Qed.

Lemma repoMetric_tags repo info rels st :
  m_tags (repoMetric repo info rels st) = {[ "github_repo" := repo ]}.
Proof. unfold repoMetric, repoTags. cbn [m_tags]. apply insert_empty. Qed.

(** A successful [processRepo] made the first two fetches, made the third
    when a token is configured, and pushed one record. *)
Lemma processRepo_success env plugin client repo w w' :
  processRepo env plugin client repo w = (None, w') ->
  exists owner name info rels st,
    splitRepoId repo = (owner, name, None)
    /\ answer_Get env client (api_calls w) owner name = inl info
    /\ answer_ListReleases env client
         (api_calls w ++ [CallGet owner name]) owner name = inl rels
    /\ acc_metrics w' = acc_metrics w ++ [repoMetric repo info rels st]
    /\ ((AccessToken plugin = "" /\ st = viewInit)
        \/ (AccessToken plugin <> ""
            /\ exists tv,
                 answer_ListTrafficViews env client
                   (api_calls w ++ [CallGet owner name; CallListReleases owner name])
                   owner name {| Per := "day" |} = inl tv
                 /\ st = viewsLoop viewInit (Views tv))).
Proof.
  intros Hp.
  destruct (processRepo_run _ _ _ _ _ _ _ Hp) as (calls & ms & Hrun & _ & Hm & _).
  inversion Hrun; subst.
  - exists owner, name, info, rels, viewInit. repeat split; auto.
  - exists owner, name, info, rels, (viewsLoop viewInit (Views tv)).
    repeat split; eauto.
Qed.

(** A successful [processRepo] pushes one record tagged with the
    identifier. *)
Lemma processRepo_pushes_tagged env plugin client repo w w' :
  processRepo env plugin client repo w = (None, w') ->
  exists m,
    acc_metrics w' = acc_metrics w ++ [m]
    /\ m_tags m = {[ "github_repo" := repo ]}.
Proof.
  intros Hp.
  destruct (processRepo_success _ _ _ _ _ _ Hp)
    as (owner & name & info & rels & st & _ & _ & _ & Hm & _).
  exists (repoMetric repo info rels st). auto using repoMetric_tags.
Qed.

(** C1, as amended. A successful [processRepo] pushes exactly one record,
    of type counter and named [github_info], with the one tag [github_repo]
    set to the identifier and the six fields [forks_count],
    [stargazers_count], [subscribers_count], [total_download_count],
    [total_views] and [unique_views]; the first three are the (possibly nil)
    values of the repository the metadata fetch returned, the last three are
    ints. *)
Theorem processRepo_emits_record env plugin client repo w w' :
  processRepo env plugin client repo w = (None, w') ->
  exists owner name info m,
    splitRepoId repo = (owner, name, None)
    /\ answer_Get env client (api_calls w) owner name = inl info
    /\ acc_metrics w' = acc_metrics w ++ [m]
    /\ m_name m = "github_info"
    /\ m_type m = Counter
    /\ m_tags m = {[ "github_repo" := repo ]}
    /\ dom (m_fields m)
       = ({[ "forks_count"; "stargazers_count"; "subscribers_count";
             "total_download_count"; "total_views"; "unique_views" ]}
          : gset string)
    /\ field m "forks_count" = Some (FIntPtr (ForksCount info))
    /\ field m "stargazers_count" = Some (FIntPtr (StargazersCount info))
    /\ field m "subscribers_count" = Some (FIntPtr (SubscribersCount info))
    /\ exists downloads views uniques,
         field m "total_download_count" = Some (FInt downloads)
         /\ field m "total_views" = Some (FInt views)
         /\ field m "unique_views" = Some (FInt uniques).
Proof.
  intros Hp.
  destruct (processRepo_success _ _ _ _ _ _ Hp)
    as (owner & name & info & rels & st & Hs & Hg & _ & Hm & _).
  destruct (repoMetric_fields repo info rels st)
    as (Hf1 & Hf2 & Hf3 & Hf4 & Hf5 & Hf6).
  exists owner, name, info, (repoMetric repo info rels st).
  repeat split; auto using repoMetric_dom, repoMetric_tags.
  eauto 6.
Qed.

Lemma processRepo_emits_record_witness :
  processRepo testEnv testPlugin testClient testRepo emptyWorld
  = (None, snd (processRepo testEnv testPlugin testClient testRepo emptyWorld))
  /\ exists owner name info m,
    splitRepoId testRepo = (owner, name, None)
    /\ answer_Get testEnv testClient (api_calls emptyWorld) owner name = inl info
    /\ acc_metrics (snd (processRepo testEnv testPlugin testClient testRepo emptyWorld))
       = acc_metrics emptyWorld ++ [m]
    /\ m_name m = "github_info"
    /\ m_type m = Counter
    /\ m_tags m = {[ "github_repo" := testRepo ]}
    /\ dom (m_fields m)
       = ({[ "forks_count"; "stargazers_count"; "subscribers_count";
             "total_download_count"; "total_views"; "unique_views" ]}
          : gset string)
    /\ field m "forks_count" = Some (FIntPtr (ForksCount info))
    /\ field m "stargazers_count" = Some (FIntPtr (StargazersCount info))
    /\ field m "subscribers_count" = Some (FIntPtr (SubscribersCount info))
    /\ exists downloads views uniques,
         field m "total_download_count" = Some (FInt downloads)
         /\ field m "total_views" = Some (FInt views)
         /\ field m "unique_views" = Some (FInt uniques).
Proof.
  split; [vm_compute; reflexivity|].
  apply (processRepo_emits_record testEnv testPlugin testClient testRepo
           emptyWorld).
  vm_compute; reflexivity.
Defined.

(** C1, the claim as written fails: the record of the test repository is
    not named [repository_info] and has no tag [repository]. *)
Lemma repository_info_not_emitted :
  exists w',
    processRepo testEnv testPlugin testClient testRepo emptyWorld = (None, w')
    /\ forall m, m ∈ acc_metrics w' ->
         m_name m <> "repository_info" /\ m_tags m !! "repository" = None.
Proof.
  exists (snd (processRepo testEnv testPlugin testClient testRepo emptyWorld)).
  split; [vm_compute; reflexivity|].
  assert (acc_metrics
            (snd (processRepo testEnv testPlugin testClient testRepo emptyWorld))
          = [repoMetric testRepo testResourceLight testRepositoryReleases
               (viewsLoop viewInit testViews)]) as -> by reflexivity.
  intros m Hm. apply list_elem_of_singleton in Hm as ->.
  split; [discriminate|].
  rewrite repoMetric_tags. apply lookup_singleton_ne. discriminate.
Qed.

(** The test of the repository, [TestGather1]: no error, and a record named
    [github_info] with the numbers of the test server. *)
Example TestGather1 :
  fst (Gather testEnv testPlugin emptyWorld) = None
  /\ acc_errors (snd (Gather testEnv testPlugin emptyWorld)) = []
  /\ acc_metrics (snd (Gather testEnv testPlugin emptyWorld))
     = [repoMetric testRepo testResourceLight testRepositoryReleases
          (viewOf (sample (october2022 24) 614 237))]
  /\ sumReleases testRepositoryReleases = 26.
Proof. repeat split; vm_compute; reflexivity. Qed.

(** ** [total_download_count] *)

(** C4, as amended. The field [total_download_count] of the record is the
    sum of the download counts of all assets of all releases the releases
    fetch returned, in the arithmetic of [int]: the exact sum reduced to
    64 bits, hence the exact sum whenever that is an [int]. A release
    without assets adds nothing. For the releases of the test server it
    is 8 + 18 + 0 = 26. *)
Theorem processRepo_total_download_count env plugin client repo w w' :
  processRepo env plugin client repo w = (None, w') ->
  exists owner name rels m,
    splitRepoId repo = (owner, name, None)
    /\ answer_ListReleases env client
         (api_calls w ++ [CallGet owner name]) owner name = inl rels
    /\ acc_metrics w' = acc_metrics w ++ [m]
    /\ field m "total_download_count"
       = Some (FInt (int_wrap (downloadTotal rels)))
    /\ (int_range (downloadTotal rels) ->
        field m "total_download_count" = Some (FInt (downloadTotal rels)))
    /\ downloadTotal testRepositoryReleases = 26.
Proof.
  intros Hp.
  destruct (processRepo_success _ _ _ _ _ _ Hp)
    as (owner & name & info & rels & st & Hs & _ & Hr & Hm & _).
  destruct (repoMetric_fields repo info rels st) as (_ & _ & _ & Hf & _).
  rewrite sumReleases_wrap in Hf.
  exists owner, name, rels, (repoMetric repo info rels st).
  repeat split; auto.
  intros Hrange. rewrite Hf, (int_wrap_range _ Hrange). reflexivity.
Qed.

Lemma processRepo_total_download_count_witness :
  processRepo testEnv testPlugin testClient testRepo emptyWorld
  = (None, snd (processRepo testEnv testPlugin testClient testRepo emptyWorld))
  /\ exists owner name rels m,
    splitRepoId testRepo = (owner, name, None)
    /\ answer_ListReleases testEnv testClient
         (api_calls emptyWorld ++ [CallGet owner name]) owner name = inl rels
    /\ acc_metrics (snd (processRepo testEnv testPlugin testClient testRepo emptyWorld))
       = acc_metrics emptyWorld ++ [m]
    /\ field m "total_download_count"
       = Some (FInt (int_wrap (downloadTotal rels)))
    /\ (int_range (downloadTotal rels) ->
        field m "total_download_count" = Some (FInt (downloadTotal rels)))
    /\ downloadTotal testRepositoryReleases = 26.
Proof.
  split; [vm_compute; reflexivity|].
  apply (processRepo_total_download_count testEnv testPlugin testClient
           testRepo emptyWorld).
  vm_compute; reflexivity.
Defined.

(** C4, the claim as written fails twice. For the releases
    [[1,1,1,2,1,2],[2,4,2,3,3,4],[]] the field is 26 and not 24; and for
    one release with assets downloaded [2^63 - 1] times and once, the field
    is [-2^63] while the sum is [2^63]. *)
Lemma total_download_count_not_24 :
  (exists w' m,
     processRepo testEnv testPlugin testClient testRepo emptyWorld = (None, w')
     /\ answer_ListReleases testEnv testClient
          [CallGet "repo_owner" "repo_name"] "repo_owner" "repo_name"
        = inl [release [1; 1; 1; 2; 1; 2]; release [2; 4; 2; 3; 3; 4];
               release []]
     /\ acc_metrics w' = [m]
     /\ field m "total_download_count" = Some (FInt 26)
     /\ field m "total_download_count" <> Some (FInt 24))
  /\ (exists w' m,
        processRepo hugeEnv testPlugin testClient testRepo emptyWorld = (None, w')
        /\ answer_ListReleases hugeEnv testClient
             [CallGet "repo_owner" "repo_name"] "repo_owner" "repo_name"
           = inl [release [2 ^ 63 - 1; 1]]
        /\ acc_metrics w' = [m]
        /\ field m "total_download_count" = Some (FInt (- 2 ^ 63))
        /\ downloadTotal [release [2 ^ 63 - 1; 1]] = 2 ^ 63).
Proof.
  split.
  - exists (snd (processRepo testEnv testPlugin testClient testRepo emptyWorld)),
      (repoMetric testRepo testResourceLight testRepositoryReleases
         (viewsLoop viewInit testViews)).
    split; [vm_compute; reflexivity|].
    split; [reflexivity|]. split; [reflexivity|].
    assert (field (repoMetric testRepo testResourceLight testRepositoryReleases
                     (viewsLoop viewInit testViews)) "total_download_count"
            = Some (FInt 26)) as ->
      by apply (repoMetric_fields testRepo testResourceLight
                  testRepositoryReleases (viewsLoop viewInit testViews)).
    split; [reflexivity|discriminate].
  - exists (snd (processRepo hugeEnv testPlugin testClient testRepo emptyWorld)),
      (repoMetric testRepo testResourceLight hugeReleases
         (viewsLoop viewInit testViews)).
    split; [vm_compute; reflexivity|].
    split; [reflexivity|]. split; [reflexivity|].
    split; [|vm_compute; reflexivity].
    apply (repoMetric_fields testRepo testResourceLight hugeReleases
             (viewsLoop viewInit testViews)).
Qed.

(** ** [total_views] and [unique_views] *)

(** C3, as amended. With an access token configured, the fields
    [total_views] and [unique_views] of the record come from the list of
    samples the traffic-views fetch returned: when some sample is dated
    after the zero time (0001-01-01T00:00:00Z) they are the count and
    uniques of a sample whose timestamp is the maximum of the list; when
    no sample is dated after the zero time, and so when the list is empty,
    both are zero. *)
Theorem processRepo_views_latest env plugin client repo w w' :
  AccessToken plugin <> "" ->
  processRepo env plugin client repo w = (None, w') ->
  exists owner name tv m,
    splitRepoId repo = (owner, name, None)
    /\ answer_ListTrafficViews env client
         (api_calls w ++ [CallGet owner name; CallListReleases owner name])
         owner name {| Per := "day" |} = inl tv
    /\ acc_metrics w' = acc_metrics w ++ [m]
    /\ (Views tv = [] ->
        field m "total_views" = Some (FInt 0)
        /\ field m "unique_views" = Some (FInt 0))
    /\ ((forall v, v ∈ Views tv -> Timestamp v <= Time_zero) ->
        field m "total_views" = Some (FInt 0)
        /\ field m "unique_views" = Some (FInt 0))
    /\ ((exists v, v ∈ Views tv /\ Time_zero < Timestamp v) ->
        exists v,
          v ∈ Views tv
          /\ (forall v', v' ∈ Views tv -> Timestamp v' <= Timestamp v)
          /\ field m "total_views" = Some (FInt (GetCount v))
          /\ field m "unique_views" = Some (FInt (GetUniques v))).
Proof.
  intros Htok Hp.
  destruct (processRepo_success _ _ _ _ _ _ Hp)
    as (owner & name & info & rels & st & Hs & _ & _ & Hm & Hst).
  destruct Hst as [[Hno _]|(_ & tv & Htv & ->)]; [contradiction|].
  destruct (repoMetric_fields repo info rels (viewsLoop viewInit (Views tv)))
    as (_ & _ & _ & _ & Hf5 & Hf6).
  exists owner, name, tv,
    (repoMetric repo info rels (viewsLoop viewInit (Views tv))).
  split; [auto|]. split; [auto|]. split; [auto|].
  rewrite Hf5, Hf6.
  destruct (viewsLoop_spec (Views tv) viewInit)
    as [[Hall ->]|(pre & v & post & Hl & Hv & Hpre & Hpost & ->)];
    simpl in *.
  - repeat split; auto.
    intros (v & Hin & Hlate). specialize (Hall _ Hin).
    unfold Time_zero in *. lia.
  - assert (v ∈ Views tv) as Hin
      by (rewrite Hl; apply elem_of_app; right; left).
    split; [intros Hnil; rewrite Hnil in Hin; inversion Hin|].
    split; [intros Hall; specialize (Hall _ Hin); lia|].
    intros _. exists v. repeat split; auto.
    intros v' Hv'. rewrite Hl in Hv'.
    apply elem_of_app in Hv' as [Hv'|Hv']; [specialize (Hpre _ Hv'); lia|].
    apply elem_of_cons in Hv' as [->|Hv']; [lia|auto].
Qed.

Lemma processRepo_views_latest_witness :
  AccessToken testPlugin <> ""
  /\ processRepo testEnv testPlugin testClient testRepo emptyWorld
     = (None, snd (processRepo testEnv testPlugin testClient testRepo emptyWorld))
  /\ exists owner name tv m,
    splitRepoId testRepo = (owner, name, None)
    /\ answer_ListTrafficViews testEnv testClient
         (api_calls emptyWorld ++ [CallGet owner name; CallListReleases owner name])
         owner name {| Per := "day" |} = inl tv
    /\ acc_metrics (snd (processRepo testEnv testPlugin testClient testRepo emptyWorld))
       = acc_metrics emptyWorld ++ [m]
    /\ (Views tv = [] ->
        field m "total_views" = Some (FInt 0)
        /\ field m "unique_views" = Some (FInt 0))
    /\ ((forall v, v ∈ Views tv -> Timestamp v <= Time_zero) ->
        field m "total_views" = Some (FInt 0)
        /\ field m "unique_views" = Some (FInt 0))
    /\ ((exists v, v ∈ Views tv /\ Time_zero < Timestamp v) ->
        exists v,
          v ∈ Views tv
          /\ (forall v', v' ∈ Views tv -> Timestamp v' <= Timestamp v)
          /\ field m "total_views" = Some (FInt (GetCount v))
          /\ field m "unique_views" = Some (FInt (GetUniques v))).
Proof.
  split; [discriminate|].
  split; [vm_compute; reflexivity|].
  apply (processRepo_views_latest testEnv testPlugin testClient testRepo
           emptyWorld).
  - discriminate.
  - vm_compute; reflexivity.
Defined.

(** C3, the claim as written fails: when the only sample, hence the one
    with the maximum timestamp, is dated 0001-01-01T00:00:00Z with count 5
    and uniques 3, the record says 0 and 0. *)
Lemma views_of_year_one_ignored :
  exists w' m,
    processRepo yearOneEnv testPlugin testClient testRepo emptyWorld = (None, w')
    /\ answer_ListTrafficViews yearOneEnv testClient
         [CallGet "repo_owner" "repo_name";
          CallListReleases "repo_owner" "repo_name"]
         "repo_owner" "repo_name" {| Per := "day" |}
       = inl (viewsOf [sample Time_zero 5 3])
    /\ acc_metrics w' = [m]
    /\ field m "total_views" = Some (FInt 0)
    /\ field m "unique_views" = Some (FInt 0)
    /\ field m "total_views" <> Some (FInt (GetCount (sample Time_zero 5 3)))
    /\ field m "unique_views" <> Some (FInt (GetUniques (sample Time_zero 5 3))).
Proof.
  exists (snd (processRepo yearOneEnv testPlugin testClient testRepo emptyWorld)),
    (repoMetric testRepo testResourceLight testRepositoryReleases
       (viewsLoop viewInit yearOneViews)).
  split; [vm_compute; reflexivity|].
  split; [reflexivity|]. split; [reflexivity|].
  destruct (repoMetric_fields testRepo testResourceLight testRepositoryReleases
              (viewsLoop viewInit yearOneViews))
    as (_ & _ & _ & _ & -> & ->).
  repeat split; discriminate.
Qed.

(** C9, as amended. With an access token configured, when some sample is
    dated after the zero time, the record carries the count and uniques of
    the earliest sample of the list among those with the maximum timestamp:
    every sample before it is strictly older, no sample after it is
    later. *)
Theorem processRepo_views_tie_earliest env plugin client repo w w' :
  AccessToken plugin <> "" ->
  processRepo env plugin client repo w = (None, w') ->
  exists owner name tv m,
    splitRepoId repo = (owner, name, None)
    /\ answer_ListTrafficViews env client
         (api_calls w ++ [CallGet owner name; CallListReleases owner name])
         owner name {| Per := "day" |} = inl tv
    /\ acc_metrics w' = acc_metrics w ++ [m]
    /\ ((exists v, v ∈ Views tv /\ Time_zero < Timestamp v) ->
        exists pre v post,
          Views tv = pre ++ v :: post
          /\ (forall v', v' ∈ pre -> Timestamp v' < Timestamp v)
          /\ (forall v', v' ∈ post -> Timestamp v' <= Timestamp v)
          /\ field m "total_views" = Some (FInt (GetCount v))
          /\ field m "unique_views" = Some (FInt (GetUniques v))).
Proof.
  intros Htok Hp.
  destruct (processRepo_success _ _ _ _ _ _ Hp)
    as (owner & name & info & rels & st & Hs & _ & _ & Hm & Hst).
  destruct Hst as [[Hno _]|(_ & tv & Htv & ->)]; [contradiction|].
  destruct (repoMetric_fields repo info rels (viewsLoop viewInit (Views tv)))
    as (_ & _ & _ & _ & Hf5 & Hf6).
  exists owner, name, tv,
    (repoMetric repo info rels (viewsLoop viewInit (Views tv))).
  split; [auto|]. split; [auto|]. split; [auto|].
  rewrite Hf5, Hf6.
  intros (v0 & Hin & Hlate).
  destruct (viewsLoop_spec (Views tv) viewInit)
    as [[Hall _]|(pre & v & post & Hl & Hv & Hpre & Hpost & ->)].
  - specialize (Hall _ Hin). simpl in Hall. lia.
  - exists pre, v, post. repeat split; auto.
Qed.

Lemma processRepo_views_tie_earliest_witness :
  AccessToken testPlugin <> ""
  /\ processRepo tiedEnv testPlugin testClient testRepo emptyWorld
     = (None, snd (processRepo tiedEnv testPlugin testClient testRepo emptyWorld))
  /\ exists owner name tv m,
    splitRepoId testRepo = (owner, name, None)
    /\ answer_ListTrafficViews tiedEnv testClient
         (api_calls emptyWorld ++ [CallGet owner name; CallListReleases owner name])
         owner name {| Per := "day" |} = inl tv
    /\ acc_metrics (snd (processRepo tiedEnv testPlugin testClient testRepo emptyWorld))
       = acc_metrics emptyWorld ++ [m]
    /\ ((exists v, v ∈ Views tv /\ Time_zero < Timestamp v) ->
        exists pre v post,
          Views tv = pre ++ v :: post
          /\ (forall v', v' ∈ pre -> Timestamp v' < Timestamp v)
          /\ (forall v', v' ∈ post -> Timestamp v' <= Timestamp v)
          /\ field m "total_views" = Some (FInt (GetCount v))
          /\ field m "unique_views" = Some (FInt (GetUniques v))).
Proof.
  split; [discriminate|].
  split; [vm_compute; reflexivity|].
  apply (processRepo_views_tie_earliest tiedEnv testPlugin testClient testRepo
           emptyWorld).
  - discriminate.
  - vm_compute; reflexivity.
Defined.

(** Of two samples that share the latest date, the first is taken. *)
Example tiedViews_first :
  viewsLoop viewInit tiedViews = viewOf (sample (october2022 24) 614 237).
Proof. vm_compute; reflexivity. Qed.

(** C9, the claim as written fails: two samples share the maximal timestamp
    0001-01-01T00:00:00Z, the earlier has count 7 and uniques 4, and the
    record says 0 and 0. *)
Lemma tied_views_of_year_one_ignored :
  exists w' m,
    processRepo tiedYearOneEnv testPlugin testClient testRepo emptyWorld
    = (None, w')
    /\ answer_ListTrafficViews tiedYearOneEnv testClient
         [CallGet "repo_owner" "repo_name";
          CallListReleases "repo_owner" "repo_name"]
         "repo_owner" "repo_name" {| Per := "day" |}
       = inl (viewsOf [sample Time_zero 7 4; sample Time_zero 9 6])
    /\ acc_metrics w' = [m]
    /\ field m "total_views" = Some (FInt 0)
    /\ field m "unique_views" = Some (FInt 0)
    /\ field m "total_views" <> Some (FInt (GetCount (sample Time_zero 7 4)))
    /\ field m "unique_views" <> Some (FInt (GetUniques (sample Time_zero 7 4))).
Proof.
  exists (snd (processRepo tiedYearOneEnv testPlugin testClient testRepo
                 emptyWorld)),
    (repoMetric testRepo testResourceLight testRepositoryReleases
       (viewsLoop viewInit tiedYearOneViews)).
  split; [vm_compute; reflexivity|].
  split; [reflexivity|]. split; [reflexivity|].
  destruct (repoMetric_fields testRepo testResourceLight testRepositoryReleases
              (viewsLoop viewInit tiedYearOneViews))
    as (_ & _ & _ & _ & -> & ->).
  repeat split; discriminate.
Qed.

(** ** Failures *)

(** C7. When [processRepo] returns an error, no record was pushed, and the
    requests it issued stop at the step that failed: none when the
    identifier is invalid, the metadata request alone when that fetch
    failed, the metadata and releases requests when the releases fetch
    failed, and all three when the traffic-views fetch failed. The error
    returned is the error of that step. *)
Theorem processRepo_aborts_at_failure env plugin client repo w e w' :
  processRepo env plugin client repo w = (Some e, w') ->
  acc_metrics w' = acc_metrics w
  /\ ((splitRepoId repo = ("", "", Some e)
       /\ e = ErrInvalidRepoId repo
       /\ api_calls w' = api_calls w)
      \/ exists owner name,
           splitRepoId repo = (owner, name, None)
           /\ ((answer_Get env client (api_calls w) owner name = inr e
                /\ api_calls w' = api_calls w ++ [CallGet owner name])
               \/ (answer_ListReleases env client
                     (api_calls w ++ [CallGet owner name]) owner name = inr e
                   /\ api_calls w'
                      = api_calls w
                        ++ [CallGet owner name; CallListReleases owner name])
               \/ (answer_ListTrafficViews env client
                     (api_calls w
                      ++ [CallGet owner name; CallListReleases owner name])
                     owner name {| Per := "day" |} = inr e
                   /\ api_calls w'
                      = api_calls w
                        ++ [CallGet owner name; CallListReleases owner name;
                            CallListTrafficViews owner name {| Per := "day" |}]))).
Proof.
  intros Hp.
  destruct (processRepo_run _ _ _ _ _ _ _ Hp)
    as (calls & ms & Hrun & Hc & Hm & _).
  inversion Hrun; subst; rewrite ?app_nil_r in *; (split; [exact Hm|]).
  - left.
    destruct (decide (strings_Count repo "/" = 1%nat)) as [H1|Hn1].
    + destruct (splitRepoId_valid repo H1) as (o & n & _ & _ & _ & Hs).
      congruence.
    + pose proof (splitRepoId_invalid repo Hn1) as Hs.
      rewrite Hs in *. replace e with (ErrInvalidRepoId repo) by congruence.
      auto.
  - right. exists owner, name. auto.
  - right. exists owner, name. auto.
  - right. exists owner, name. auto 6.
Qed.

Lemma processRepo_aborts_at_failure_witness :
  processRepo testEnv testPlugin testClient "nobody/nothing" emptyWorld
  = (Some (ErrExternal "unexpected end of JSON input"),
     snd (processRepo testEnv testPlugin testClient "nobody/nothing" emptyWorld))
  /\ acc_metrics
       (snd (processRepo testEnv testPlugin testClient "nobody/nothing" emptyWorld))
     = acc_metrics emptyWorld
  /\ api_calls
       (snd (processRepo testEnv testPlugin testClient "nobody/nothing" emptyWorld))
     = [CallGet "nobody" "nothing"].
Proof.
  split; [vm_compute; reflexivity|].
  destruct (processRepo_aborts_at_failure testEnv testPlugin testClient
              "nobody/nothing" emptyWorld
              (ErrExternal "unexpected end of JSON input")
              (snd (processRepo testEnv testPlugin testClient "nobody/nothing"
                      emptyWorld)))
    as [Hm _]; [vm_compute; reflexivity|].
  split; [exact Hm|reflexivity].
Defined.

Lemma processRepo_failure_frame env plugin client repo w e w' :
  processRepo env plugin client repo w = (Some e, w') ->
  acc_metrics w' = acc_metrics w /\ acc_errors w' = acc_errors w.
Proof.
  intros Hp.
  destruct (processRepo_run _ _ _ _ _ _ _ Hp)
    as (calls & ms & Hrun & _ & Hm & He & _).
  inversion Hrun; subst; rewrite ?app_nil_r in *; auto.
Qed.

(** ** Without an access token *)

Lemma gatherRepos_without_token env plugin client repos w :
  AccessToken plugin = "" ->
  exists calls ms,
    api_calls (snd (gatherRepos env plugin client repos w))
      = api_calls w ++ calls
    /\ Forall (fun c => isListTrafficViews c = false) calls
    /\ acc_metrics (snd (gatherRepos env plugin client repos w))
      = acc_metrics w ++ ms
    /\ Forall noViews ms.
Proof.
  intros Htok. revert w. induction repos as [|r rs IH]; intros w.
  - exists [], []. simpl. rewrite !app_nil_r. auto.
  - rewrite gatherRepos_cons.
    destruct (processRepo env plugin client r w) as [err w1] eqn:Hp.
    destruct (processRepo_run _ _ _ _ _ _ _ Hp)
      as (calls & ms & Hrun & Hc & Hm & _).
    destruct (IH (snd (AddError (fst (err, w1)) (snd (err, w1)))))
      as (calls' & ms' & Hc' & Hnv & Hm' & Hz).
    exists (calls ++ calls'), (ms ++ ms').
    assert (api_calls (snd (AddError err w1)) = api_calls w1
            /\ acc_metrics (snd (AddError err w1)) = acc_metrics w1)
      as [Ha1 Ha2] by (destruct err; auto).
    simpl in *. rewrite Hc', Hm', Ha1, Ha2, Hc, Hm, !app_assoc.
    repeat split; auto; apply Forall_app; split; auto;
      inversion Hrun; subst; try contradiction;
      repeat constructor;
      apply (repoMetric_fields r info rels viewInit).
Qed.

(** C5. With an empty access token, a cycle issues no traffic-views
    request, and every record it pushes has [total_views] and
    [unique_views] equal to 0. *)
Theorem Gather_without_token env plugin w err w' :
  AccessToken plugin = "" ->
  Gather env plugin w = (err, w') ->
  exists calls ms,
    api_calls w' = api_calls w ++ calls
    /\ Forall (fun c => isListTrafficViews c = false) calls
    /\ acc_metrics w' = acc_metrics w ++ ms
    /\ Forall noViews ms.
Proof.
  intros Htok. unfold Gather.
  destruct (Nat.eqb (length (Repos plugin)) 0).
  - intros [= <- <-]. exists [], []. rewrite !app_nil_r. auto.
  - unfold mbind, M_bind at 1.
    destruct (getClient env plugin w) as [[client|e] w0] eqn:Hc;
      destruct (getClient_frame _ _ _ _ _ Hc) as (Hcalls & Hms & _).
    + unfold mbind, M_bind, mret, M_ret.
      destruct (gatherRepos_without_token env plugin client (Repos plugin) w0
                  Htok) as (calls & ms & H1 & H2 & H3 & H4).
      destruct (gatherRepos env plugin client (Repos plugin) w0) as [[] w1].
      intros [= <- <-]. simpl in *. exists calls, ms.
      rewrite H1, H3, Hcalls, Hms. auto.
    + intros [= <- <-]. exists [], []. rewrite !app_nil_r. auto.
Qed.

Lemma Gather_without_token_witness :
  AccessToken anonPlugin = ""
  /\ Gather testEnv anonPlugin emptyWorld
     = (None, snd (Gather testEnv anonPlugin emptyWorld))
  /\ exists calls ms,
    api_calls (snd (Gather testEnv anonPlugin emptyWorld))
      = api_calls emptyWorld ++ calls
    /\ Forall (fun c => isListTrafficViews c = false) calls
    /\ acc_metrics (snd (Gather testEnv anonPlugin emptyWorld))
      = acc_metrics emptyWorld ++ ms
    /\ Forall noViews ms.
Proof.
  split; [reflexivity|].
  split; [vm_compute; reflexivity|].
  apply (Gather_without_token testEnv anonPlugin emptyWorld None).
  - reflexivity.
  - vm_compute; reflexivity.
Defined.

(** The cycle of the witness: three requests, none for traffic views, one
    record, two errors. *)
Example anonPlugin_cycle :
  api_calls (snd (Gather testEnv anonPlugin emptyWorld))
  = [CallGet "nobody" "nothing"; CallGet "repo_owner" "repo_name";
     CallListReleases "repo_owner" "repo_name"]
  /\ acc_metrics (snd (Gather testEnv anonPlugin emptyWorld))
     = [repoMetric testRepo testResourceLight testRepositoryReleases viewInit]
  /\ acc_errors (snd (Gather testEnv anonPlugin emptyWorld))
     = [ErrExternal "unexpected end of JSON input";
        ErrInvalidRepoId "no-slash"].
Proof. repeat split; vm_compute; reflexivity. Qed.

(** ** One repository fails, the cycle goes on *)

(** C6. Let the configured list be [pre ++ repo :: post] and let the
    collection of [repo] fail with [e], for whatever reason, in the world
    [w1] the repositories before it left. Then [e] is added once to the
    errors of the accumulator and no record is added for [repo]; [Gather]
    goes on with the repositories of [post] from there and returns nil;
    the error is in the accumulator at the end; and every later repository
    whose collection succeeds has its record, tagged with its identifier,
    in the accumulator at the end. *)
Theorem Gather_failure_is_isolated env plugin w client w0 pre repo post w1 e w2 :
  Repos plugin = pre ++ repo :: post ->
  getClient env plugin w = (inl client, w0) ->
  w1 = snd (gatherRepos env plugin client pre w0) ->
  processRepo env plugin client repo w1 = (Some e, w2) ->
  acc_errors (snd (AddError (Some e) w2)) = acc_errors w1 ++ [e]
  /\ acc_metrics (snd (AddError (Some e) w2)) = acc_metrics w1
  /\ Gather env plugin w
     = (None, snd (gatherRepos env plugin client post
                     (snd (AddError (Some e) w2))))
  /\ e ∈ acc_errors (snd (Gather env plugin w))
  /\ forall mid r rest w4 w5,
       post = mid ++ r :: rest ->
       w4 = snd (gatherRepos env plugin client mid
                   (snd (AddError (Some e) w2))) ->
       processRepo env plugin client r w4 = (None, w5) ->
       exists m,
         acc_metrics w5 = acc_metrics w4 ++ [m]
         /\ m_tags m = {[ "github_repo" := r ]}
         /\ m ∈ acc_metrics (snd (Gather env plugin w)).
Proof.
  intros HR Hc -> Hp.
  destruct (processRepo_failure_frame _ _ _ _ _ _ _ Hp) as [Hm He].
  assert (Gather env plugin w
          = (None, snd (gatherRepos env plugin client post
                          (snd (AddError (Some e) w2))))) as HG.
  { rewrite (Gather_loop env plugin w client w0); [|rewrite HR|exact Hc].
    - rewrite HR, gatherRepos_app, gatherRepos_cons, Hp. reflexivity.
    - intros Hnil. apply app_eq_nil in Hnil as [_ Hnil]. discriminate. }
  split; [simpl; rewrite He; reflexivity|].
  split; [exact Hm|].
  split; [exact HG|].
  rewrite HG. cbn [snd].
  split.
  - destruct (gatherRepos_grows env plugin client post
                (snd (AddError (Some e) w2))) as (ms & es & _ & ->).
    simpl. rewrite !elem_of_app, list_elem_of_singleton. auto.
  - intros mid r rest w4 w5 -> -> Hr.
    destruct (processRepo_pushes_tagged _ _ _ _ _ _ Hr) as (m & Hm5 & Ht).
    exists m. split; [exact Hm5|]. split; [exact Ht|].
    rewrite gatherRepos_app, gatherRepos_cons, Hr. cbn [fst snd AddError].
    destruct (gatherRepos_grows env plugin client rest w5)
      as (ms & es & -> & _).
    rewrite Hm5, !elem_of_app, list_elem_of_singleton. auto.
Qed.

Lemma Gather_failure_is_isolated_witness :
  Repos anonPlugin = [] ++ "nobody/nothing" :: [testRepo; "no-slash"]
  /\ getClient testEnv anonPlugin emptyWorld = (inl anonClient, anonWorld0)
  /\ anonWorld0 = snd (gatherRepos testEnv anonPlugin anonClient [] anonWorld0)
  /\ processRepo testEnv anonPlugin anonClient "nobody/nothing" anonWorld0
     = (Some (ErrExternal "unexpected end of JSON input"), anonWorld2)
  /\ acc_errors
       (snd (AddError (Some (ErrExternal "unexpected end of JSON input"))
               anonWorld2))
     = acc_errors anonWorld0 ++ [ErrExternal "unexpected end of JSON input"]
  /\ acc_metrics
       (snd (AddError (Some (ErrExternal "unexpected end of JSON input"))
               anonWorld2))
     = acc_metrics anonWorld0
  /\ Gather testEnv anonPlugin emptyWorld
     = (None,
        snd (gatherRepos testEnv anonPlugin anonClient [testRepo; "no-slash"]
               (snd (AddError
                       (Some (ErrExternal "unexpected end of JSON input"))
                       anonWorld2))))
  /\ ErrExternal "unexpected end of JSON input"
       ∈ acc_errors (snd (Gather testEnv anonPlugin emptyWorld))
  /\ forall mid r rest w4 w5,
       [testRepo; "no-slash"] = mid ++ r :: rest ->
       w4 = snd (gatherRepos testEnv anonPlugin anonClient mid
                   (snd (AddError
                           (Some (ErrExternal "unexpected end of JSON input"))
                           anonWorld2))) ->
       processRepo testEnv anonPlugin anonClient r w4 = (None, w5) ->
       exists m,
         acc_metrics w5 = acc_metrics w4 ++ [m]
         /\ m_tags m = {[ "github_repo" := r ]}
         /\ m ∈ acc_metrics (snd (Gather testEnv anonPlugin emptyWorld)).
Proof.
  split; [reflexivity|].
  split; [vm_compute; reflexivity|].
  split; [reflexivity|].
  split; [vm_compute; reflexivity|].
  apply (Gather_failure_is_isolated testEnv anonPlugin emptyWorld anonClient
           anonWorld0 [] "nobody/nothing" [testRepo; "no-slash"] anonWorld0
           (ErrExternal "unexpected end of JSON input") anonWorld2).
  - reflexivity.
  - vm_compute; reflexivity.
  - reflexivity.
  - vm_compute; reflexivity.
Defined.


(** The cycle in which every repository fails: nil is returned, the three
    errors are in the accumulator, and there is no record. *)
Example failingPlugin_cycle :
  fst (Gather testEnv failingPlugin emptyWorld) = None
  /\ acc_errors (snd (Gather testEnv failingPlugin emptyWorld))
     = [ErrInvalidRepoId "no-slash";
        ErrExternal "unexpected end of JSON input";
        ErrInvalidRepoId "a/b/c"]
  /\ acc_metrics (snd (Gather testEnv failingPlugin emptyWorld)) = [].
Proof. repeat split; vm_compute; reflexivity. Qed.

(** * Further properties of the plugin *)

(** ** What [processRepo] and [getClient] log and create *)

Lemma processRepo_log env plugin client repo w :
  log_lines (snd (processRepo env plugin client repo w))
  = log_lines w ++ (if Debug plugin then [processingLine repo] else []).
Proof.
  unfold processRepo, mbind, M_bind, mret, M_ret, when.
  unfold Repositories_Get, Repositories_ListReleases,
    Repositories_ListTrafficViews, AddCounter, Log_Infof, issue.
  destruct (splitRepoId repo) as [[owner name] [e|]];
    destruct (Debug plugin); simpl; repeat run_step;
    rewrite ?app_nil_r; reflexivity.
Qed.

Lemma getClient_effects env plugin w :
  let hc := if negb (String.eqb (AccessToken plugin) "")
            then oauth2Client plugin else timeoutClient plugin in
  fst (getClient env plugin w)
  = (if negb (String.eqb (APIBaseURL plugin) "")
     then NewEnterpriseClient env (APIBaseURL plugin) "" hc
     else inl (NewClient hc))
  /\ http_clients (snd (getClient env plugin w))
     = http_clients w
       ++ timeoutClient plugin
          :: (if negb (String.eqb (AccessToken plugin) "")
              then [oauth2Client plugin] else [])
  /\ log_lines (snd (getClient env plugin w))
     = log_lines w ++ (if Debug plugin then getClientLines plugin else []).
Proof.
  unfold getClient, getClientLines, mbind, M_bind, mret, M_ret, when,
    newHTTPClient, Log_Debug, timeoutClient, oauth2Client.
  destruct (Debug plugin); simpl;
    destruct (negb (String.eqb (AccessToken plugin) ""));
    destruct (negb (String.eqb (APIBaseURL plugin) "")); simpl;
    rewrite <- ?app_assoc, ?app_nil_r; auto.
Qed.

Lemma gatherRepos_cycle env plugin client repos w :
  exists steps,
    cycle env plugin client (api_calls w) repos steps
    /\ api_calls (snd (gatherRepos env plugin client repos w))
       = api_calls w ++ concat (s_calls <$> steps)
    /\ acc_metrics (snd (gatherRepos env plugin client repos w))
       = acc_metrics w ++ concat (s_metrics <$> steps)
    /\ acc_errors (snd (gatherRepos env plugin client repos w))
       = acc_errors w ++ concat (s_errors <$> steps)
    /\ http_clients (snd (gatherRepos env plugin client repos w))
       = http_clients w
    /\ log_lines (snd (gatherRepos env plugin client repos w))
       = log_lines w
         ++ (if Debug plugin then processingLine <$> repos else []).
Proof.
  revert w. induction repos as [|r rs IH]; intros w.
  - exists []. simpl. rewrite !app_nil_r.
    repeat split; try constructor.
    destruct (Debug plugin); simpl; rewrite app_nil_r; reflexivity.
  - rewrite gatherRepos_cons.
    pose proof (processRepo_log env plugin client r w) as Hlog.
    destruct (processRepo env plugin client r w) as [err w1] eqn:Hp.
    destruct (processRepo_run _ _ _ _ _ _ _ Hp)
      as (calls & ms & Hrun & Hc & Hm & He & Hh).
    cbn [fst snd] in *.
    assert (api_calls (snd (AddError err w1)) = api_calls w1
            /\ acc_metrics (snd (AddError err w1)) = acc_metrics w1
            /\ acc_errors (snd (AddError err w1))
               = acc_errors w1 ++ option_list err
            /\ http_clients (snd (AddError err w1)) = http_clients w1
            /\ log_lines (snd (AddError err w1)) = log_lines w1)
      as (Ha1 & Ha2 & Ha3 & Ha4 & Ha5)
      by (destruct err; simpl; rewrite ?app_nil_r; auto).
    destruct (IH (snd (AddError err w1)))
      as (steps & Hcyc & H1 & H2 & H3 & H4 & H5).
    exists ({| s_calls := calls; s_metrics := ms;
               s_errors := option_list err |} :: steps).
    rewrite Ha1, Hc in Hcyc.
    split; [econstructor; eauto|].
    rewrite H1, H2, H3, H4, H5, Ha1, Ha2, Ha3, Ha4, Ha5, Hc, Hm, He, Hh, Hlog.
    simpl. rewrite <- !app_assoc.
    repeat split. destruct (Debug plugin); reflexivity.
Qed.

(** The three ways [Gather] can go. *)
Lemma Gather_paths env plugin w :
  (Repos plugin = [] /\ Gather env plugin w = (Some ErrEmptyRepoList, w))
  \/ (exists e,
        Repos plugin <> []
        /\ fst (getClient env plugin w) = inr e
        /\ Gather env plugin w = (Some e, snd (getClient env plugin w)))
  \/ (exists client,
        Repos plugin <> []
        /\ fst (getClient env plugin w) = inl client
        /\ Gather env plugin w
           = (None, snd (gatherRepos env plugin client (Repos plugin)
                           (snd (getClient env plugin w))))).
Proof.
  destruct (Repos plugin) as [|r rs] eqn:HR.
  - left. split; [reflexivity|]. unfold Gather. rewrite HR. reflexivity.
  - right. destruct (getClient env plugin w) as [[client|e] w0] eqn:Hc.
    + right. exists client. split; [discriminate|]. split; [reflexivity|].
      rewrite <- HR. apply Gather_loop; [rewrite HR; discriminate|exact Hc].
    + left. exists e. split; [discriminate|]. split; [reflexivity|].
      unfold Gather. rewrite HR. cbn [length Nat.eqb].
      unfold mbind, M_bind. rewrite Hc. reflexivity.
Qed.

(** ** Facts about a cycle *)

Lemma cycle_outcomes env plugin client h repos steps :
  cycle env plugin client h repos steps ->
  (length (concat (s_metrics <$> steps))
   + length (concat (s_errors <$> steps)))%nat = length repos.
Proof.
  induction 1 as [|h repo rest err calls ms steps Hrun _ IH]; [reflexivity|].
  csimpl. rewrite !length_app.
  inversion Hrun; subst; csimpl; lia.
Qed.

Lemma cycle_records env plugin client h repos steps :
  cycle env plugin client h repos steps ->
  m_tags <$> concat (s_metrics <$> steps) `sublist_of` tagsOf <$> repos
  /\ Forall (fun m => m_name m = "github_info" /\ m_type m = Counter)
       (concat (s_metrics <$> steps)).
Proof.
  induction 1 as [|h repo rest err calls ms steps Hrun _ [IH1 IH2]];
    [split; constructor|].
  csimpl. inversion Hrun; subst; csimpl;
    (split; [|repeat constructor; assumption]);
    try (apply sublist_cons; assumption);
    apply (sublist_skip (tagsOf repo)); assumption.
Qed.

Lemma cycle_requests env plugin client h repos steps :
  cycle env plugin client h repos steps ->
  (length (concat (s_calls <$> steps))
   <= (if String.eqb (AccessToken plugin) "" then 2 else 3) * length repos)%nat
  /\ forall c, c ∈ concat (s_calls <$> steps) ->
       exists repo owner name,
         repo ∈ repos
         /\ splitRepoId repo = (owner, name, None)
         /\ c ∈ requestsOf owner name.
Proof.
  induction 1 as [|h repo rest err calls ms steps Hrun _ [IH1 IH2]].
  - split; [simpl; lia|]. intros c Hc. inversion Hc.
  - csimpl. rewrite length_app. split.
    + destruct (String.eqb_spec (AccessToken plugin) "");
        inversion Hrun; subst; csimpl; try contradiction; lia.
    + intros c Hc. apply elem_of_app in Hc as [Hc|Hc].
      * assert (exists owner name,
                  splitRepoId repo = (owner, name, None)
                  /\ calls `sublist_of` requestsOf owner name)
          as (owner & name & Hs & Hsub).
        { unfold requestsOf.
          inversion Hrun; subst; try (inversion Hc; fail);
            exists owner, name; split; auto;
            repeat first [apply sublist_skip | apply sublist_cons
                         | apply sublist_nil]. }
        exists repo, owner, name. split; [left|]. split; [exact Hs|].
        eapply elem_of_sublist; eauto.
      * destruct (IH2 c Hc) as (r & owner & name & Hr & Hs & Hin).
        exists r, owner, name. split; [right; exact Hr|]. auto.
Qed.

Lemma cycle_invalid env plugin client h repos steps :
  cycle env plugin client h repos steps ->
  Forall (fun repo => strings_Count repo "/" <> 1%nat) repos ->
  concat (s_calls <$> steps) = []
  /\ concat (s_metrics <$> steps) = []
  /\ concat (s_errors <$> steps) = ErrInvalidRepoId <$> repos.
Proof.
  induction 1 as [|h repo rest err calls ms steps Hrun Hcyc IH];
    [intros _; auto|].
  intros Hall. apply Forall_cons in Hall as [Hbad Hall].
  pose proof (splitRepoId_invalid repo Hbad) as Hs.
  inversion Hrun; subst; try congruence.
  destruct (IH Hall) as (E1 & E2 & E3).
  csimpl. rewrite E1, E2, E3.
  repeat split. f_equal. congruence.
Qed.

Lemma cycle_all_succeed env plugin client h repos steps :
  cycle env plugin client h repos steps ->
  (forall c h' o n, exists x, answer_Get env c h' o n = inl x) ->
  (forall c h' o n, exists x, answer_ListReleases env c h' o n = inl x) ->
  (forall c h' o n opts,
     exists x, answer_ListTrafficViews env c h' o n opts = inl x) ->
  Forall (fun repo => strings_Count repo "/" = 1%nat) repos ->
  concat (s_errors <$> steps) = []
  /\ m_tags <$> concat (s_metrics <$> steps) = tagsOf <$> repos
  /\ length (concat (s_calls <$> steps))
     = ((if String.eqb (AccessToken plugin) "" then 2 else 3)
        * length repos)%nat.
Proof.
  intros Hcyc HG HR HV.
  induction Hcyc as [|h repo rest err calls ms steps Hrun Hcyc IH];
    [intros _; csimpl; repeat split; lia|].
  intros Hall. apply Forall_cons in Hall as [Hone Hall].
  destruct (IH Hall) as (IH1 & IH2 & IH3).
  destruct (splitRepoId_valid repo Hone) as (o & n & _ & _ & _ & Hs).
  csimpl. rewrite length_app, IH3.
  inversion Hrun; subst;
    try match goal with
    | H : answer_Get _ ?c ?h' ?o' ?n' = inr _ |- _ =>
        destruct (HG c h' o' n'); congruence
    | H : answer_ListReleases _ ?c ?h' ?o' ?n' = inr _ |- _ =>
        destruct (HR c h' o' n'); congruence
    | H : answer_ListTrafficViews _ ?c ?h' ?o' ?n' ?opts = inr _ |- _ =>
        destruct (HV c h' o' n' opts); congruence
    end; try congruence.
  - csimpl. rewrite IH2.
    destruct (String.eqb_spec (AccessToken plugin) ""); [|contradiction].
    repeat split; auto; lia.
  - csimpl. rewrite IH2.
    destruct (String.eqb_spec (AccessToken plugin) ""); [contradiction|].
    repeat split; auto; lia.
Qed.

(** What a cycle that got its client leaves, step by step. *)
Lemma Gather_cycle env plugin w client :
  Repos plugin <> [] ->
  fst (getClient env plugin w) = inl client ->
  exists steps,
    cycle env plugin client (api_calls w) (Repos plugin) steps
    /\ fst (Gather env plugin w) = None
    /\ api_calls (snd (Gather env plugin w))
       = api_calls w ++ concat (s_calls <$> steps)
    /\ acc_metrics (snd (Gather env plugin w))
       = acc_metrics w ++ concat (s_metrics <$> steps)
    /\ acc_errors (snd (Gather env plugin w))
       = acc_errors w ++ concat (s_errors <$> steps).
Proof.
  intros Hne Hc.
  destruct (getClient env plugin w) as [r w0] eqn:Hg. simpl in Hc. subst r.
  rewrite (Gather_loop _ _ _ _ _ Hne Hg). cbn [fst snd].
  destruct (getClient_frame _ _ _ _ _ Hg) as (F1 & F2 & F3).
  destruct (gatherRepos_cycle env plugin client (Repos plugin) w0)
    as (steps & Hcyc & H1 & H2 & H3 & _).
  exists steps. rewrite H1, H2, H3, F1, F2, F3. rewrite F1 in Hcyc. auto.
Qed.

(** ** [getClient] *)

(** X1. If [getClient] fails, [Gather] returns its error without
    processing any repository: no request is issued and the accumulator
    receives neither a record nor an error. *)
Theorem Gather_client_error env plugin w e :
  Repos plugin <> [] ->
  fst (getClient env plugin w) = inr e ->
  fst (Gather env plugin w) = Some e
  /\ api_calls (snd (Gather env plugin w)) = api_calls w
  /\ acc_metrics (snd (Gather env plugin w)) = acc_metrics w
  /\ acc_errors (snd (Gather env plugin w)) = acc_errors w.
Proof.
  intros Hne Hc.
  destruct (Gather_paths env plugin w)
    as [[Hnil _]|[(e' & _ & Hc' & ->)|(client & _ & Hc' & _)]];
    [contradiction| |congruence].
  destruct (getClient env plugin w) as [r w0] eqn:Hg.
  destruct (getClient_frame _ _ _ _ _ Hg) as (F1 & F2 & F3).
  simpl in *. split; [congruence|auto].
Qed.

Lemma Gather_client_error_witness :
  Repos testPlugin <> []
  /\ fst (getClient badURLEnv testPlugin emptyWorld)
     = inr (ErrExternal "parse: missing protocol scheme")
  /\ fst (Gather badURLEnv testPlugin emptyWorld)
     = Some (ErrExternal "parse: missing protocol scheme")
  /\ api_calls (snd (Gather badURLEnv testPlugin emptyWorld))
     = api_calls emptyWorld
  /\ acc_metrics (snd (Gather badURLEnv testPlugin emptyWorld))
     = acc_metrics emptyWorld
  /\ acc_errors (snd (Gather badURLEnv testPlugin emptyWorld))
     = acc_errors emptyWorld.
Proof.
  split; [discriminate|]. split; [reflexivity|].
  apply (Gather_client_error badURLEnv testPlugin emptyWorld).
  - discriminate.
  - reflexivity.
Defined.

(** X2. [getClient] can only fail through [NewEnterpriseClient]: an error
    means that a base URL is configured and that [NewEnterpriseClient]
    rejected it. With an empty base URL [getClient] always returns a client,
    for [https://api.github.com/]. *)
Theorem getClient_error_origin env plugin w :
  (forall e,
     fst (getClient env plugin w) = inr e ->
     APIBaseURL plugin <> ""
     /\ exists hc,
          NewEnterpriseClient env (APIBaseURL plugin) "" hc = inr e)
  /\ (APIBaseURL plugin = "" ->
      exists c,
        fst (getClient env plugin w) = inl c
        /\ BaseURL c = "https://api.github.com/").
Proof.
  destruct (getClient_effects env plugin w) as (Hr & _). cbv zeta in Hr.
  rewrite Hr. split.
  - intros e.
    destruct (String.eqb_spec (APIBaseURL plugin) ""); simpl;
      [discriminate|]. eauto.
  - intros ->. simpl. eauto.
Qed.

Lemma getClient_error_origin_witness :
  (fst (getClient badURLEnv testPlugin emptyWorld)
   = inr (ErrExternal "parse: missing protocol scheme")
   /\ APIBaseURL testPlugin <> "")
  /\ (APIBaseURL anonPlugin = ""
      /\ exists c,
           fst (getClient testEnv anonPlugin emptyWorld) = inl c
           /\ BaseURL c = "https://api.github.com/").
Proof.
  split.
  - split; [reflexivity|].
    apply (proj1 (getClient_error_origin badURLEnv testPlugin emptyWorld)
             (ErrExternal "parse: missing protocol scheme")).
    reflexivity.
  - split; [reflexivity|].
    apply (proj2 (getClient_error_origin testEnv anonPlugin emptyWorld)).
    reflexivity.
Defined.

(** With an access token, [getClient] creates the HTTP client that has the
    configured timeout and then replaces it by the oauth2 client. *)
Lemma getClient_with_token env plugin w :
  AccessToken plugin <> "" ->
  http_clients (snd (getClient env plugin w))
  = http_clients w
    ++ [ {| hc_Timeout := Some (Timeout plugin); hc_AccessToken := None |};
         {| hc_Timeout := None; hc_AccessToken := Some (AccessToken plugin) |} ]
  /\ fst (getClient env plugin w)
     = (if String.eqb (APIBaseURL plugin) "" then
          inl (NewClient
                 {| hc_Timeout := None;
                    hc_AccessToken := Some (AccessToken plugin) |})
        else
          NewEnterpriseClient env (APIBaseURL plugin) ""
            {| hc_Timeout := None;
               hc_AccessToken := Some (AccessToken plugin) |}).
Proof.
  intros Htok.
  destruct (getClient_effects env plugin w) as (Hr & Hh & _).
  cbv zeta in Hr. rewrite Hr, Hh.
  destruct (String.eqb_spec (AccessToken plugin) ""); [contradiction|].
  destruct (String.eqb (APIBaseURL plugin) ""); auto.
Qed.



(** ** A whole cycle *)

(** X5. A cycle over a non-empty repository list creates its HTTP clients
    once, whatever the number of repositories and whatever happens to
    them: one client without an access token, two with one. No client is
    created while the repositories are processed. *)
Theorem Gather_clients_per_cycle env plugin w :
  Repos plugin <> [] ->
  http_clients (snd (Gather env plugin w))
  = http_clients w
    ++ {| hc_Timeout := Some (Timeout plugin); hc_AccessToken := None |}
       :: (if String.eqb (AccessToken plugin) "" then []
           else [ {| hc_Timeout := None;
                     hc_AccessToken := Some (AccessToken plugin) |} ]).
Proof.
  intros Hne.
  destruct (getClient_effects env plugin w) as (_ & Hh & _).
  assert (http_clients (snd (Gather env plugin w))
          = http_clients (snd (getClient env plugin w))) as ->.
  { destruct (Gather_paths env plugin w)
      as [[Hnil _]|[(e & _ & _ & ->)|(client & _ & _ & ->)]];
      [contradiction|reflexivity|].
    cbn [snd].
    destruct (gatherRepos_cycle env plugin client (Repos plugin)
                (snd (getClient env plugin w)))
      as (steps & _ & _ & _ & _ & H4 & _).
    exact H4. }
  rewrite Hh. destruct (String.eqb (AccessToken plugin) ""); reflexivity.
Qed.

Lemma Gather_clients_per_cycle_witness :
  Repos twoRepos <> []
  /\ http_clients (snd (Gather openEnv twoRepos emptyWorld))
     = http_clients emptyWorld
       ++ {| hc_Timeout := Some (Timeout twoRepos); hc_AccessToken := None |}
          :: (if String.eqb (AccessToken twoRepos) "" then []
              else [ {| hc_Timeout := None;
                        hc_AccessToken := Some (AccessToken twoRepos) |} ]).
Proof.
  split; [discriminate|].
  apply (Gather_clients_per_cycle openEnv twoRepos emptyWorld). discriminate.
Defined.

(** X6. With [Debug] off, a cycle writes nothing to the log. *)
Theorem Gather_log_quiet env plugin w :
  Debug plugin = false ->
  log_lines (snd (Gather env plugin w)) = log_lines w.
Proof.
  intros Hd.
  destruct (getClient_effects env plugin w) as (_ & _ & Hl).
  rewrite Hd, app_nil_r in Hl.
  destruct (Gather_paths env plugin w)
    as [[_ ->]|[(e & _ & _ & ->)|(client & _ & _ & ->)]]; cbn [snd]; auto.
  destruct (gatherRepos_cycle env plugin client (Repos plugin)
              (snd (getClient env plugin w)))
    as (steps & _ & _ & _ & _ & _ & H5).
  rewrite H5, Hd, app_nil_r. exact Hl.
Qed.

Lemma Gather_log_quiet_witness :
  Debug anonPlugin = false
  /\ log_lines (snd (Gather testEnv anonPlugin emptyWorld))
     = log_lines emptyWorld.
Proof.
  split; [reflexivity|].
  apply (Gather_log_quiet testEnv anonPlugin emptyWorld). reflexivity.
Defined.

(** X7. With [Debug] on, a cycle that gets its client logs the lines of
    [getClient] and then one line [Processing repo: %s] per configured
    repository, in the order of the list, whether the repository is
    collected or fails. *)
Theorem Gather_log_debug env plugin w client :
  Debug plugin = true ->
  Repos plugin <> [] ->
  fst (getClient env plugin w) = inl client ->
  log_lines (snd (Gather env plugin w))
  = log_lines w
    ++ [LogDebug ["Creating GitHub client..."]]
    ++ (if String.eqb (AccessToken plugin) "" then []
        else [LogDebug ["Using oauth2 access token..."]])
    ++ (if String.eqb (APIBaseURL plugin) "" then []
        else [LogDebug ["Using API base URL: '%s'..."; APIBaseURL plugin]])
    ++ ((fun repo => LogInfof "Processing repo: %s" [repo]) <$> Repos plugin).
Proof.
  intros Hd Hne Hc.
  destruct (getClient_effects env plugin w) as (_ & _ & Hl).
  destruct (Gather_paths env plugin w)
    as [[Hnil _]|[(e & _ & Hc' & _)|(client' & _ & _ & ->)]];
    [contradiction|congruence|].
  cbn [snd].
  destruct (gatherRepos_cycle env plugin client' (Repos plugin)
              (snd (getClient env plugin w)))
    as (steps & _ & _ & _ & _ & _ & H5).
  rewrite H5, Hl, Hd. unfold getClientLines.
  destruct (String.eqb (AccessToken plugin) "");
    destruct (String.eqb (APIBaseURL plugin) ""); simpl;
    rewrite <- ?app_assoc; reflexivity.
Qed.

Lemma Gather_log_debug_witness :
  Debug twoRepos = true
  /\ Repos twoRepos <> []
  /\ fst (getClient openEnv twoRepos emptyWorld) = inl tokenClient
  /\ log_lines (snd (Gather openEnv twoRepos emptyWorld))
     = log_lines emptyWorld
       ++ [LogDebug ["Creating GitHub client..."]]
       ++ (if String.eqb (AccessToken twoRepos) "" then []
           else [LogDebug ["Using oauth2 access token..."]])
       ++ (if String.eqb (APIBaseURL twoRepos) "" then []
           else [LogDebug ["Using API base URL: '%s'..."; APIBaseURL twoRepos]])
       ++ ((fun repo => LogInfof "Processing repo: %s" [repo])
             <$> Repos twoRepos).
Proof.
  split; [reflexivity|]. split; [discriminate|]. split; [reflexivity|].
  apply (Gather_log_debug openEnv twoRepos emptyWorld tokenClient).
  - reflexivity.
  - discriminate.
  - reflexivity.
Defined.


(** X9. In a cycle that gets its client, every configured repository ends
    in exactly one of two ways, a record or an error in the accumulator:
    the records and the errors added together are as many as the
    configured repositories (an identifier listed twice is collected
    twice). *)
Theorem Gather_one_outcome_per_repo env plugin w client :
  Repos plugin <> [] ->
  fst (getClient env plugin w) = inl client ->
  exists ms es,
    acc_metrics (snd (Gather env plugin w)) = acc_metrics w ++ ms
    /\ acc_errors (snd (Gather env plugin w)) = acc_errors w ++ es
    /\ (length ms + length es)%nat = length (Repos plugin).
Proof.
  intros Hne Hc.
  destruct (Gather_cycle env plugin w client Hne Hc)
    as (steps & Hcyc & _ & _ & Hm & He).
  exists (concat (s_metrics <$> steps)), (concat (s_errors <$> steps)).
  repeat split; auto. eapply cycle_outcomes; eauto.
Qed.

Lemma Gather_one_outcome_per_repo_witness :
  Repos anonPlugin <> []
  /\ fst (getClient testEnv anonPlugin emptyWorld) = inl anonClient
  /\ exists ms es,
    acc_metrics (snd (Gather testEnv anonPlugin emptyWorld))
    = acc_metrics emptyWorld ++ ms
    /\ acc_errors (snd (Gather testEnv anonPlugin emptyWorld))
       = acc_errors emptyWorld ++ es
    /\ (length ms + length es)%nat = length (Repos anonPlugin).
Proof.
  split; [discriminate|]. split; [reflexivity|].
  apply (Gather_one_outcome_per_repo testEnv anonPlugin emptyWorld anonClient).
  - discriminate.
  - reflexivity.
Defined.

(** X10. The records a cycle pushes are all counters named [github_info],
    and they come in the order of the configured list: their tag sets,
    in order, are a sublist of the tag sets of the configured
    identifiers. *)
Theorem Gather_records_in_order env plugin w :
  exists ms,
    acc_metrics (snd (Gather env plugin w)) = acc_metrics w ++ ms
    /\ Forall (fun m => m_name m = "github_info" /\ m_type m = Counter) ms
    /\ m_tags <$> ms
         `sublist_of`
       (fun repo => {[ "github_repo" := repo ]}) <$> Repos plugin.
Proof.
  destruct (Gather_paths env plugin w)
    as [[_ ->]|[(e & _ & Hc & ->)|(client & Hne & Hc & _)]].
  - exists []. rewrite app_nil_r. repeat split; auto. apply sublist_nil_l.
  - destruct (getClient env plugin w) as [r w0] eqn:Hg.
    destruct (getClient_frame _ _ _ _ _ Hg) as (_ & F2 & _).
    exists []. rewrite app_nil_r. repeat split; auto. apply sublist_nil_l.
  - destruct (Gather_cycle env plugin w client Hne Hc)
      as (steps & Hcyc & _ & _ & Hm & _).
    destruct (cycle_records _ _ _ _ _ _ Hcyc) as [Hsub Hall].
    exists (concat (s_metrics <$> steps)). auto.
Qed.

(** X11. A cycle issues at most three requests per configured repository,
    and at most two when no access token is configured. *)
Theorem Gather_requests_bound env plugin w :
  exists calls,
    api_calls (snd (Gather env plugin w)) = api_calls w ++ calls
    /\ (length calls
        <= (if String.eqb (AccessToken plugin) "" then 2 else 3)
           * length (Repos plugin))%nat.
Proof.
  destruct (Gather_paths env plugin w)
    as [[_ ->]|[(e & _ & Hc & ->)|(client & Hne & Hc & _)]].
  - exists []. rewrite app_nil_r. split; [reflexivity|simpl; lia].
  - destruct (getClient env plugin w) as [r w0] eqn:Hg.
    destruct (getClient_frame _ _ _ _ _ Hg) as (F1 & _).
    exists []. rewrite app_nil_r. split; [exact F1|simpl; lia].
  - destruct (Gather_cycle env plugin w client Hne Hc)
      as (steps & Hcyc & _ & Hcalls & _).
    destruct (cycle_requests _ _ _ _ _ _ Hcyc) as [Hlen _].
    exists (concat (s_calls <$> steps)). auto.
Qed.

(** X12. A cycle only queries configured repositories: every request it
    issues is the metadata, releases or traffic-views request (per day)
    for the owner and name that [splitRepoId] makes of some identifier of
    the list. *)
Theorem Gather_requests_configured env plugin w :
  exists calls,
    api_calls (snd (Gather env plugin w)) = api_calls w ++ calls
    /\ forall c, c ∈ calls ->
         exists repo owner name,
           repo ∈ Repos plugin
           /\ splitRepoId repo = (owner, name, None)
           /\ (c = CallGet owner name
               \/ c = CallListReleases owner name
               \/ c = CallListTrafficViews owner name {| Per := "day" |}).
Proof.
  destruct (Gather_paths env plugin w)
    as [[_ ->]|[(e & _ & Hc & ->)|(client & Hne & Hc & _)]].
  - exists []. rewrite app_nil_r. split; [reflexivity|inversion 1].
  - destruct (getClient env plugin w) as [r w0] eqn:Hg.
    destruct (getClient_frame _ _ _ _ _ Hg) as (F1 & _).
    exists []. rewrite app_nil_r. split; [exact F1|inversion 1].
  - destruct (Gather_cycle env plugin w client Hne Hc)
      as (steps & Hcyc & _ & Hcalls & _).
    destruct (cycle_requests _ _ _ _ _ _ Hcyc) as [_ Hin].
    exists (concat (s_calls <$> steps)). split; [exact Hcalls|].
    intros c Hc'. destruct (Hin c Hc') as (repo & owner & name & Hr & Hs & Hreq).
    exists repo, owner, name. split; [exact Hr|]. split; [exact Hs|].
    unfold requestsOf, viewsCall in Hreq.
    rewrite !elem_of_cons, elem_of_nil in Hreq. intuition.
Qed.

(** X13. When no configured identifier has exactly one [/], a cycle that
    gets its client issues no request and pushes no record, and the
    accumulator receives the invalid-identifier error of each identifier,
    in the order of the list. *)
Theorem Gather_invalid_identifiers env plugin w client :
  Forall (fun repo => strings_Count repo "/" <> 1%nat) (Repos plugin) ->
  Repos plugin <> [] ->
  fst (getClient env plugin w) = inl client ->
  api_calls (snd (Gather env plugin w)) = api_calls w
  /\ acc_metrics (snd (Gather env plugin w)) = acc_metrics w
  /\ acc_errors (snd (Gather env plugin w))
     = acc_errors w ++ (ErrInvalidRepoId <$> Repos plugin).
Proof.
  intros Hbad Hne Hc.
  destruct (Gather_cycle env plugin w client Hne Hc)
    as (steps & Hcyc & _ & Hcalls & Hm & He).
  destruct (cycle_invalid _ _ _ _ _ _ Hcyc Hbad) as (E1 & E2 & E3).
  rewrite Hcalls, Hm, He, E1, E2, E3, !app_nil_r. auto.
Qed.

Lemma Gather_invalid_identifiers_witness :
  Forall (fun repo => strings_Count repo "/" <> 1%nat) (Repos invalidPlugin)
  /\ Repos invalidPlugin <> []
  /\ fst (getClient testEnv invalidPlugin emptyWorld) = inl anonClient
  /\ api_calls (snd (Gather testEnv invalidPlugin emptyWorld))
     = api_calls emptyWorld
  /\ acc_metrics (snd (Gather testEnv invalidPlugin emptyWorld))
     = acc_metrics emptyWorld
  /\ acc_errors (snd (Gather testEnv invalidPlugin emptyWorld))
     = acc_errors emptyWorld ++ (ErrInvalidRepoId <$> Repos invalidPlugin).
Proof.
  assert (Forall (fun repo => strings_Count repo "/" <> 1%nat)
            (Repos invalidPlugin)) as Hbad
    by (repeat constructor; discriminate).
  split; [exact Hbad|]. split; [discriminate|]. split; [reflexivity|].
  apply (Gather_invalid_identifiers testEnv invalidPlugin emptyWorld
           anonClient).
  - exact Hbad.
  - discriminate.
  - reflexivity.
Defined.

(** X14. When every configured identifier has exactly one [/] and the
    remote answers every request, a cycle that gets its client adds no
    error, pushes one record per configured repository, tagged with the
    identifiers in the order of the list, and issues exactly three requests
    per repository, or two without an access token. *)
Theorem Gather_all_succeed env plugin w client :
  (forall c h o n, exists x, answer_Get env c h o n = inl x) ->
  (forall c h o n, exists x, answer_ListReleases env c h o n = inl x) ->
  (forall c h o n opts,
     exists x, answer_ListTrafficViews env c h o n opts = inl x) ->
  Forall (fun repo => strings_Count repo "/" = 1%nat) (Repos plugin) ->
  Repos plugin <> [] ->
  fst (getClient env plugin w) = inl client ->
  exists calls ms,
    acc_errors (snd (Gather env plugin w)) = acc_errors w
    /\ acc_metrics (snd (Gather env plugin w)) = acc_metrics w ++ ms
    /\ m_tags <$> ms
       = (fun repo => {[ "github_repo" := repo ]}) <$> Repos plugin
    /\ api_calls (snd (Gather env plugin w)) = api_calls w ++ calls
    /\ length calls
       = ((if String.eqb (AccessToken plugin) "" then 2 else 3)
          * length (Repos plugin))%nat.
Proof.
  intros HG HR HV Hok Hne Hc.
  destruct (Gather_cycle env plugin w client Hne Hc)
    as (steps & Hcyc & _ & Hcalls & Hm & He).
  destruct (cycle_all_succeed _ _ _ _ _ _ Hcyc HG HR HV Hok) as (E1 & E2 & E3).
  exists (concat (s_calls <$> steps)), (concat (s_metrics <$> steps)).
  rewrite He, E1, app_nil_r. auto.
Qed.

Lemma Gather_all_succeed_witness :
  (forall c h o n, exists x, answer_Get openEnv c h o n = inl x)
  /\ (forall c h o n, exists x, answer_ListReleases openEnv c h o n = inl x)
  /\ (forall c h o n opts,
        exists x, answer_ListTrafficViews openEnv c h o n opts = inl x)
  /\ Forall (fun repo => strings_Count repo "/" = 1%nat) (Repos twoRepos)
  /\ Repos twoRepos <> []
  /\ fst (getClient openEnv twoRepos emptyWorld) = inl tokenClient
  /\ exists calls ms,
    acc_errors (snd (Gather openEnv twoRepos emptyWorld))
    = acc_errors emptyWorld
    /\ acc_metrics (snd (Gather openEnv twoRepos emptyWorld))
       = acc_metrics emptyWorld ++ ms
    /\ m_tags <$> ms
       = (fun repo => {[ "github_repo" := repo ]}) <$> Repos twoRepos
    /\ api_calls (snd (Gather openEnv twoRepos emptyWorld))
       = api_calls emptyWorld ++ calls
    /\ length calls
       = ((if String.eqb (AccessToken twoRepos) "" then 2 else 3)
          * length (Repos twoRepos))%nat.
Proof.
  assert (Forall (fun repo => strings_Count repo "/" = 1%nat)
            (Repos twoRepos)) as Hok by (repeat constructor).
  split; [intros; eexists; reflexivity|].
  split; [intros; eexists; reflexivity|].
  split; [intros; eexists; reflexivity|].
  split; [exact Hok|]. split; [discriminate|]. split; [reflexivity|].
  apply (Gather_all_succeed openEnv twoRepos emptyWorld tokenClient).
  - intros; eexists; reflexivity.
  - intros; eexists; reflexivity.
  - intros; eexists; reflexivity.
  - exact Hok.
  - discriminate.
  - reflexivity.
Defined.

(** ** The aggregation loops *)

Lemma assetsTotal_Permutation (l l' : list ReleaseAsset) :
  l ≡ₚ l' ->
  foldr Z.add 0 (map GetDownloadCount l)
  = foldr Z.add 0 (map GetDownloadCount l').
Proof.
  induction 1; simpl; lia.
Qed.

Lemma downloadTotal_app (a b : list RepositoryRelease) :
  downloadTotal (a ++ b) = downloadTotal a + downloadTotal b.
Proof.
  unfold downloadTotal. rewrite map_app, concat_app, map_app, foldr_app.
  generalize (foldr Z.add 0 (map GetDownloadCount (concat (map Assets b)))).
  intros z.
  induction (map GetDownloadCount (concat (map Assets a))) as [|x l IH];
    simpl; lia.
Qed.

(** X15. The download total does not depend on the order of the releases,
    nor on the order of the assets or on the release an asset is attached
    to: two lists of releases with the same assets overall, in any order,
    give the same total, overflow included. *)
Theorem sumReleases_Permutation (rels rels' : list RepositoryRelease) :
  concat (map Assets rels) ≡ₚ concat (map Assets rels') ->
  sumReleases rels = sumReleases rels'.
Proof.
  intros Hperm. rewrite !sumReleases_wrap. f_equal.
  unfold downloadTotal. apply assetsTotal_Permutation. exact Hperm.
Qed.

Lemma sumReleases_Permutation_witness :
  concat (map Assets [release [1; 2]; release [3]])
    ≡ₚ concat (map Assets [release []; release [3; 1]; release [2]])
  /\ sumReleases [release [1; 2]; release [3]]
     = sumReleases [release []; release [3; 1]; release [2]].
Proof.
  assert (concat (map Assets [release [1; 2]; release [3]])
            ≡ₚ concat (map Assets [release []; release [3; 1]; release [2]]))
    as Hperm.
  { simpl. symmetry.
    apply (Permutation_cons_append [asset 1; asset 2] (asset 3)). }
  split; [exact Hperm|].
  apply (sumReleases_Permutation _ _ Hperm).
Defined.

(** X16. The download total of two lists of releases put end to end is
    the [int] sum of their totals. *)
Theorem sumReleases_app (a b : list RepositoryRelease) :
  sumReleases (a ++ b) = int_add (sumReleases a) (sumReleases b).
Proof.
  rewrite !sumReleases_wrap, downloadTotal_app. unfold int_add.
  rewrite int_wrap_add_l.
  replace (downloadTotal a + int_wrap (downloadTotal b))
    with (int_wrap (downloadTotal b) + downloadTotal a) by lia.
  rewrite int_wrap_add_l. f_equal. lia.
Qed.

(** X17. When the last sample of the list is dated after the zero time
    and strictly after every sample before it, as in a list in ascending
    order of days, the loop over the traffic views ends with the count and
    uniques of the last sample (zero for an absent count or uniques). *)
Theorem viewsLoop_ascending_last (pre : list TrafficData) (v : TrafficData) :
  Time_zero < Timestamp v ->
  (forall v', v' ∈ pre -> Timestamp v' < Timestamp v) ->
  viewsLoop viewInit (pre ++ [v])
  = {| viewTimestamp := Timestamp v;
       totalViews := GetCount v;
       uniqueViews := GetUniques v |}.
Proof.
  intros Hpos Hpre. unfold viewsLoop. rewrite foldl_app. simpl.
  fold (viewsLoop viewInit pre).
  assert (viewTimestamp (viewsLoop viewInit pre) < Timestamp v) as Hlt.
  { destruct (viewsLoop_spec pre viewInit)
      as [[_ ->]|(p & v0 & q & Hl & _ & _ & _ & ->)]; [exact Hpos|].
    simpl. apply Hpre. rewrite Hl. apply elem_of_app. right. left. }
  unfold viewStep, Time_After.
  rewrite (proj2 (Z.ltb_lt _ _) Hlt). reflexivity.
Qed.

Lemma viewsLoop_ascending_last_witness :
  Time_zero < Timestamp (sample (october2022 24) 614 237)
  /\ (forall v', v' ∈ [sample (october2022 22) 566 168;
                        sample (october2022 23) 675 184] ->
                 Timestamp v' < Timestamp (sample (october2022 24) 614 237))
  /\ viewsLoop viewInit
       ([sample (october2022 22) 566 168; sample (october2022 23) 675 184]
        ++ [sample (october2022 24) 614 237])
     = {| viewTimestamp := october2022 24;
          totalViews := 614; uniqueViews := 237 |}.
Proof.
  assert (forall v', v' ∈ [sample (october2022 22) 566 168;
                            sample (october2022 23) 675 184] ->
                     Timestamp v' < Timestamp (sample (october2022 24) 614 237))
    as Hpre.
  { intros v'. rewrite !elem_of_cons, elem_of_nil.
    intros [->|[->|[]]]; reflexivity. }
  split; [reflexivity|]. split; [exact Hpre|].
  apply (viewsLoop_ascending_last _ (sample (october2022 24) 614 237)).
  - reflexivity.
  - exact Hpre.
Defined.

(** ** The client of a cycle on the public API *)

(** X3. With an access token and no base URL, a cycle over a non-empty
    list always gets its client and returns nil, and the client its
    requests go through is the oauth2 one, for [https://api.github.com/]:
    it carries the token and has no timeout, the configured timeout being
    set on the client that was replaced. *)
Theorem Gather_token_client env plugin w :
  AccessToken plugin <> "" ->
  APIBaseURL plugin = "" ->
  Repos plugin <> [] ->
  exists c,
    hc_AccessToken (client_http c) = Some (AccessToken plugin)
    /\ hc_Timeout (client_http c) = None
    /\ BaseURL c = "https://api.github.com/"
    /\ Gather env plugin w
       = (None, snd (gatherRepos env plugin c (Repos plugin)
                       (snd (getClient env plugin w)))).
Proof.
  intros Htok Hurl Hne.
  destruct (getClient_with_token env plugin w Htok) as [_ Hc].
  rewrite Hurl in Hc. simpl in Hc.
  eexists. split; [|split; [|split]]; cycle 3.
  - apply Gather_loop; [exact Hne|].
    destruct (getClient env plugin w) as [r w0]. simpl in *. rewrite Hc.
    reflexivity.
  - reflexivity.
  - reflexivity.
  - reflexivity.
Qed.

Lemma Gather_token_client_witness :
  AccessToken twoRepos <> ""
  /\ APIBaseURL twoRepos = ""
  /\ Repos twoRepos <> []
  /\ exists c,
    hc_AccessToken (client_http c) = Some (AccessToken twoRepos)
    /\ hc_Timeout (client_http c) = None
    /\ BaseURL c = "https://api.github.com/"
    /\ Gather openEnv twoRepos emptyWorld
       = (None, snd (gatherRepos openEnv twoRepos c (Repos twoRepos)
                       (snd (getClient openEnv twoRepos emptyWorld)))).
Proof.
  split; [discriminate|]. split; [reflexivity|]. split; [discriminate|].
  apply (Gather_token_client openEnv twoRepos emptyWorld).
  - discriminate.
  - reflexivity.
  - discriminate.
Defined.



(** ** The debug flag *)

Lemma repoRun_deterministic env plugin plugin' client repo h
    err calls ms err' calls' ms' :
  AccessToken plugin = AccessToken plugin' ->
  repoRun env plugin client repo h err calls ms ->
  repoRun env plugin' client repo h err' calls' ms' ->
  err = err' /\ calls = calls' /\ ms = ms'.
Proof.
  intros Htok H1 H2.
  inversion H1; subst; inversion H2; subst;
    repeat match goal with
    | Ha : splitRepoId ?r = _, Hb : splitRepoId ?r = _ |- _ =>
        rewrite Ha in Hb; inversion Hb; subst; clear Hb
    | Ha : ?f env client ?hh ?o ?n = _, Hb : ?f env client ?hh ?o ?n = _ |- _ =>
        rewrite Ha in Hb; inversion Hb; subst; clear Hb
    | Ha : ?f env client ?hh ?o ?n ?x = _,
      Hb : ?f env client ?hh ?o ?n ?x = _ |- _ =>
        rewrite Ha in Hb; inversion Hb; subst; clear Hb
    end;
    try congruence; auto.
Qed.

Lemma processRepo_observable env plugin plugin' client repo w w' :
  AccessToken plugin = AccessToken plugin' ->
  observable w = observable w' ->
  fst (processRepo env plugin client repo w)
  = fst (processRepo env plugin' client repo w')
  /\ observable (snd (processRepo env plugin client repo w))
     = observable (snd (processRepo env plugin' client repo w')).
Proof.
  intros Htok Hobs. unfold observable in Hobs.
  injection Hobs as Hm He Hc Hh.
  destruct (processRepo env plugin client repo w) as [err w1] eqn:H1.
  destruct (processRepo env plugin' client repo w') as [err' w1'] eqn:H2.
  destruct (processRepo_run _ _ _ _ _ _ _ H1)
    as (calls & ms & Hrun & Hc1 & Hm1 & He1 & Hh1).
  destruct (processRepo_run _ _ _ _ _ _ _ H2)
    as (calls' & ms' & Hrun' & Hc2 & Hm2 & He2 & Hh2).
  rewrite <- Hc in Hrun'.
  destruct (repoRun_deterministic _ _ _ _ _ _ _ _ _ _ _ _ Htok Hrun Hrun')
    as (-> & -> & ->).
  unfold observable. cbn [fst snd].
  split; [reflexivity|]. congruence.
Qed.

Lemma gatherRepos_observable env plugin plugin' client repos w w' :
  AccessToken plugin = AccessToken plugin' ->
  observable w = observable w' ->
  observable (snd (gatherRepos env plugin client repos w))
  = observable (snd (gatherRepos env plugin' client repos w')).
Proof.
  intros Htok. revert w w'.
  induction repos as [|r rs IH]; intros w w' Hobs; [exact Hobs|].
  rewrite !gatherRepos_cons.
  destruct (processRepo_observable env plugin plugin' client r w w' Htok Hobs)
    as [Hr Ho].
  apply IH. rewrite Hr.
  destruct (fst (processRepo env plugin' client r w')) as [e|];
    unfold observable in *; simpl; congruence.
Qed.

(** X18. The debug flag changes nothing but the log: a cycle run with
    the flag set either way, from the same world, returns the same error
    and leaves the same records, the same accumulator errors, the same
    requests and the same HTTP clients. *)
Theorem Gather_debug_transparent env plugin b w :
  fst (Gather env (setDebug b plugin) w) = fst (Gather env plugin w)
  /\ observable (snd (Gather env (setDebug b plugin) w))
     = observable (snd (Gather env plugin w)).
Proof.
  destruct (getClient_effects env plugin w) as (Hr & Hh & _).
  destruct (getClient_effects env (setDebug b plugin) w) as (Hr' & Hh' & _).
  cbv zeta in Hr, Hr'. unfold timeoutClient, oauth2Client in *.
  cbn [setDebug AccessToken APIBaseURL Timeout] in Hr', Hh'.
  assert (observable (snd (getClient env (setDebug b plugin) w))
          = observable (snd (getClient env plugin w))) as Hobs.
  { destruct (getClient env plugin w) as [r w0] eqn:Hg.
    destruct (getClient env (setDebug b plugin) w) as [r' w0'] eqn:Hg'.
    destruct (getClient_frame _ _ _ _ _ Hg) as (F1 & F2 & F3).
    destruct (getClient_frame _ _ _ _ _ Hg') as (F1' & F2' & F3').
    unfold observable. cbn [snd] in *.
    rewrite F1, F2, F3, F1', F2', F3', Hh, Hh'. reflexivity. }
  destruct (Gather_paths env plugin w)
    as [[Hnil ->]|[(e & Hne & Hc & ->)|(client & Hne & Hc & ->)]];
  destruct (Gather_paths env (setDebug b plugin) w)
    as [[Hnil' ->]|[(e' & Hne' & Hc' & ->)|(client' & Hne' & Hc' & ->)]];
    cbn [setDebug Repos] in *; try contradiction; try congruence;
    cbn [fst snd].
  - auto.
  - split; [congruence|exact Hobs].
  - split; [reflexivity|].
    assert (client' = client) as -> by congruence.
    apply gatherRepos_observable; [reflexivity|exact Hobs].
Qed.
